(** * LogisticMgntApp: shipment lifecycle, payment ledger and admin login

    A shallow embedding of the backend's core:
    - [models/Shipment.js], [models/Payment.js], [models/Admin.js]
      (schema defaults, required paths, [pre('save')] hooks, virtuals and
      methods);
    - the route handlers of [routes/shipments.js], [routes/payments.js]
      and the login and profile handlers of [routes/auth.js].

    Conventions of the embedding.
    - A MongoDB collection is a finite map from [ObjectId] to documents;
      [findById] is map lookup, [save] runs the [pre('save')] hook and
      inserts at the document's key.  [create] applies the schema defaults,
      validates the new document, runs the hook with [isNew] and inserts at
      a fresh key, in this order: Mongoose validates before the schema's
      [pre('save')] hooks run, so a required path that only the hook fills
      in fails validation and nothing is stored.
    - A JavaScript [Number] is an IEEE 754 binary64 value (a primitive
      float of the kernel); a [Date] is an integer number of milliseconds
      ([Z]).  The clock and the random identifier generator are inputs of
      every handler (record [Env]).
    - String enumerations of the schemas are inductive types, identifiers
      are [ObjectId]s and dates are [Date]s: a request field that
      express-validator checks only for being such a value ([isMongoId],
      [isISO8601], [isIn] over a whole enumeration) is well formed by its
      type.  Where a route accepts only part of an enumeration the check
      is modelled ([accepted_statuses], [settable_statuses]).
    - Text is a string of code units below 256; [trim] removes the white
      space of that range (the ASCII white space and the no-break space).
    - A handler is the function behind the [protect] / [checkPermission]
      middleware: it receives the authenticated [Principal], and returns
      the HTTP reply together with the new collection.
    - Validation is modelled where a document is created, on the paths the
      records carry.  [save] of a stored document is modelled without it:
      the handlers write values that pass the validators, and where
      Mongoose would still refuse (a stored document that breaks one) the
      model stores, so the histories below hold every collection the code
      can reach, and possibly more.  Persistence failures are not part of
      the model. *)

From Stdlib Require Import Floats ZArith Ascii String.
From stdpp Require Import base option list strings gmap fin_maps.

Local Open Scope Z_scope.
#[local] Set Warnings "-inexact-float".

(** ** Shared vocabulary *)

Abbreviation ObjectId := positive.
Abbreviation Date := Z.

(** What a handler reads from its surroundings: [Date.now()] and the text
    produced by the [Date.now().toString(36)] / [Math.random()] generators. *)
Record Env := mkEnv {
  now : Date;
  gen_shipmentId : string;
  gen_trackingNumber : string;
  gen_paymentId : string;
  gen_refundId : string;
  gen_partialId : string;
  gen_sessionId : string
}.

(** [req.userType], set by the [protect] middleware. *)
Inductive UserType := driver | client | admin.

#[global] Instance UserType_eq_dec : EqDecision UserType.
Proof. solve_decision. Defined.

(** The authenticated principal the [protect] middleware attaches to the
    request ([req.user._id] and [req.userType]). *)
Record Principal := mkPrincipal {
  userType : UserType;
  user_id : ObjectId
}.

(** An HTTP reply: [res.status(code).json({success, message, data})]. *)
Record Reply (A : Type) := mkReply {
  code : nat;
  success : bool;
  message : string;
  data : option A
}.
Arguments mkReply {A} _ _ _ _.
Arguments code {A} _.
Arguments success {A} _.
Arguments message {A} _.
Arguments data {A} _.

Definition fail {A} (c : nat) (msg : string) : Reply A := mkReply c false msg None.
Definition ok {A} (c : nat) (msg : string) (d : A) : Reply A := mkReply c true msg (Some d).

(** A JavaScript [Number]. *)
Abbreviation Number := float.

(** Comparisons of numbers, [a > b], [a >= b] and [a <= b]: each is false
    when an operand is [NaN]. *)
Definition num_gt (a b : Number) : bool := (b <? a)%float.
Definition num_ge (a b : Number) : bool := (b <=? a)%float.
Definition num_le (a b : Number) : bool := (a <=? b)%float.

(** [!x] on a number: [0], [-0] and [NaN] are falsy. *)
Definition falsy (x : Number) : bool := is_zero x || is_nan x.

(** The number of an integer: the nearest binary64 value, the integer
    itself up to [2^53]. *)
Definition num_of_int (z : Z) : Number :=
  SF2Prim (binary_normalize prec emax z 0 false).

(** [isFloat({ min })] of express-validator on a number of the body: the
    number is turned into text, which the check's pattern accepts unless it
    reads [Infinity] or [NaN], and then parsed and compared. *)
Definition isFloat_min (lo x : Number) : bool := is_finite x && num_ge x lo.

(** *** express-validator sanitizers and checks on text *)

(** The white space of JavaScript below code unit 256: tab, line feed,
    vertical tab, form feed, carriage return, space and no-break space. *)
Definition is_space (c : ascii) : bool :=
  match c with
  | "009"%char | "010"%char | "011"%char | "012"%char | "013"%char | " "%char
  | "160"%char => true
  | _ => false
  end.

Fixpoint ltrim (s : string) : string :=
  match s with
  | EmptyString => EmptyString
  | String c s' => if is_space c then ltrim s' else s
  end.

Fixpoint rtrim (s : string) : string :=
  match s with
  | EmptyString => EmptyString
  | String c s' =>
      match rtrim s' with
      | EmptyString => if is_space c then EmptyString else String c EmptyString
      | r => String c r
      end
  end.

(** [.trim()] *)
Definition trim (s : string) : string := rtrim (ltrim s).

(** JavaScript truthiness of a possibly absent string. *)
Definition truthy_text (o : option string) : bool :=
  match o with Some (String _ _) => true | _ => false end.

(** [.notEmpty()] *)
Definition notEmpty (s : string) : bool :=
  match s with EmptyString => false | _ => true end.

(** [.isLength({min, max})] *)
Definition isLength (lo hi : nat) (s : string) : bool :=
  (lo <=? String.length s)%nat && (String.length s <=? hi)%nat.

(** ** models/Shipment.js *)

Module ShipmentModel.

(** The [status] enumeration of the schema. *)
Inductive Status :=
| pending | assigned | picked | packed | processing | in_transit
| out_for_delivery | delivered | failed | returned | cancelled.

#[global] Instance Status_eq_dec : EqDecision Status.
Proof. solve_decision. Defined.

Definition status_name (s : Status) : string :=
  match s with
  | pending => "pending" | assigned => "assigned" | picked => "picked"
  | packed => "packed" | processing => "processing"
  | in_transit => "in_transit" | out_for_delivery => "out_for_delivery"
  | delivered => "delivered" | failed => "failed" | returned => "returned"
  | cancelled => "cancelled"
  end.

(** [timeline.updatedBy] *)
Inductive UpdatedBy := by_system | by_driver | by_admin | by_client.

Definition updatedBy_of (t : UserType) : UpdatedBy :=
  match t with driver => by_driver | client => by_client | admin => by_admin end.

Inductive Category :=
| Electronics | Clothing | Food | Documents | Machinery | Chemicals | Other.

Inductive ServiceType := standard | express | overnight | same_day.
Inductive Priority := low | medium | high | urgent.

Record Location := mkLocation {
  loc_name : string;
  loc_coordinates : option (Number * Number)
}.

Record Item := mkItem {
  item_name : string;
  quantity : Z;
  weight : Number;
  value_amount : option Number; (* [item.value.amount], when [item.value] is there *)
  category : Category;
  isFragile : bool
}.

Record Address := mkAddress {
  street : string;
  city : string;
  state : string;
  zipCode : string
}.

Record TimelineEntry := mkEntry {
  e_status : Status;
  e_timestamp : Date;
  e_location : option Location;
  e_notes : option string;
  e_updatedBy : UpdatedBy;
  e_updatedByUser : option ObjectId
}.

(** [documents.type], [photos.type] and the [...Model] paths. *)
Inductive DocumentType :=
| pickup_receipt | delivery_receipt | invoice | insurance | customs | other_document.

Inductive PhotoType :=
| pickup_proof | delivery_proof | damage | package_condition | other_photo.

Inductive UserModel := Driver_model | Client_model | Admin_model.

Record Document := mkDocument {
  doc_type : DocumentType;
  doc_name : string;
  doc_url : string;
  uploadDate : Date;
  uploadedBy : ObjectId;
  uploadedByModel : UserModel
}.

Record Photo := mkPhoto {
  photo_type : PhotoType;
  photo_url : string;
  photo_description : option string;
  photo_timestamp : Date;
  photo_location : option (Number * Number);
  takenBy : ObjectId;
  takenByModel : UserModel
}.

Record Shipment := mkShipment {
  shipmentId : option string;
  trackingNumber : option string;
  client_ref : ObjectId;
  driver_ref : option ObjectId;
  description : string;
  items : list Item;
  totalWeight : Number;
  totalValue : Number;
  pickupAddress : Address;
  deliveryAddress : Address;
  serviceType : ServiceType;
  priority : Priority;
  status : Status;
  timeline : list TimelineEntry;
  requestedPickupDate : Date;
  requestedDeliveryDate : Date;
  actualPickupDate : option Date;
  actualDeliveryDate : option Date;
  documents : list Document;
  photos : list Photo
}.

Definition set_ids (sid trk : option string) (s : Shipment) : Shipment :=
  mkShipment sid trk (client_ref s) (driver_ref s) (description s) (items s)
    (totalWeight s) (totalValue s) (pickupAddress s) (deliveryAddress s)
    (serviceType s) (priority s) (status s) (timeline s)
    (requestedPickupDate s) (requestedDeliveryDate s)
    (actualPickupDate s) (actualDeliveryDate s) (documents s) (photos s).

Definition set_driver (d : option ObjectId) (s : Shipment) : Shipment :=
  mkShipment (shipmentId s) (trackingNumber s) (client_ref s) d (description s)
    (items s) (totalWeight s) (totalValue s) (pickupAddress s)
    (deliveryAddress s) (serviceType s) (priority s) (status s) (timeline s)
    (requestedPickupDate s) (requestedDeliveryDate s)
    (actualPickupDate s) (actualDeliveryDate s) (documents s) (photos s).

Definition set_status (st : Status) (s : Shipment) : Shipment :=
  mkShipment (shipmentId s) (trackingNumber s) (client_ref s) (driver_ref s)
    (description s) (items s) (totalWeight s) (totalValue s) (pickupAddress s)
    (deliveryAddress s) (serviceType s) (priority s) st (timeline s)
    (requestedPickupDate s) (requestedDeliveryDate s)
    (actualPickupDate s) (actualDeliveryDate s) (documents s) (photos s).

(** [this.timeline.push(e)] *)
Definition push_timeline (e : TimelineEntry) (s : Shipment) : Shipment :=
  mkShipment (shipmentId s) (trackingNumber s) (client_ref s) (driver_ref s)
    (description s) (items s) (totalWeight s) (totalValue s) (pickupAddress s)
    (deliveryAddress s) (serviceType s) (priority s) (status s)
    (timeline s ++ [e])
    (requestedPickupDate s) (requestedDeliveryDate s)
    (actualPickupDate s) (actualDeliveryDate s) (documents s) (photos s).

Definition set_actualPickupDate (d : Date) (s : Shipment) : Shipment :=
  mkShipment (shipmentId s) (trackingNumber s) (client_ref s) (driver_ref s)
    (description s) (items s) (totalWeight s) (totalValue s) (pickupAddress s)
    (deliveryAddress s) (serviceType s) (priority s) (status s) (timeline s)
    (requestedPickupDate s) (requestedDeliveryDate s)
    (Some d) (actualDeliveryDate s) (documents s) (photos s).

Definition set_actualDeliveryDate (d : Date) (s : Shipment) : Shipment :=
  mkShipment (shipmentId s) (trackingNumber s) (client_ref s) (driver_ref s)
    (description s) (items s) (totalWeight s) (totalValue s) (pickupAddress s)
    (deliveryAddress s) (serviceType s) (priority s) (status s) (timeline s)
    (requestedPickupDate s) (requestedDeliveryDate s)
    (actualPickupDate s) (Some d) (documents s) (photos s).

(** [this.documents.push(...ds)] and [this.photos.push(...ps)] *)
Definition push_documents (ds : list Document) (s : Shipment) : Shipment :=
  mkShipment (shipmentId s) (trackingNumber s) (client_ref s) (driver_ref s)
    (description s) (items s) (totalWeight s) (totalValue s) (pickupAddress s)
    (deliveryAddress s) (serviceType s) (priority s) (status s) (timeline s)
    (requestedPickupDate s) (requestedDeliveryDate s)
    (actualPickupDate s) (actualDeliveryDate s) (documents s ++ ds) (photos s).

Definition push_photos (ps : list Photo) (s : Shipment) : Shipment :=
  mkShipment (shipmentId s) (trackingNumber s) (client_ref s) (driver_ref s)
    (description s) (items s) (totalWeight s) (totalValue s) (pickupAddress s)
    (deliveryAddress s) (serviceType s) (priority s) (status s) (timeline s)
    (requestedPickupDate s) (requestedDeliveryDate s)
    (actualPickupDate s) (actualDeliveryDate s) (documents s) (photos s ++ ps).

(** [shipmentSchema.pre('save')]: on a new document, fill in the generated
    identifiers when absent and push the initial timeline entry. *)
Definition pre_save (env : Env) (isNew : bool) (s : Shipment) : Shipment :=
  if isNew then
    let sid := if truthy_text (shipmentId s) then shipmentId s
               else Some (gen_shipmentId env) in
    let trk := if truthy_text (trackingNumber s) then trackingNumber s
               else Some (gen_trackingNumber env) in
    push_timeline
      (mkEntry pending (now env) None (Some "Shipment request created")
               by_system None)
      (set_ids sid trk s)
  else s.

(** The [currentStatusInfo] virtual: the last timeline entry, [null] when
    the timeline is empty. *)
Definition currentStatusInfo (s : Shipment) : option TimelineEntry :=
  last (timeline s).

(** [shipmentSchema.methods.updateStatus] *)
Definition updateStatus (env : Env) (newStatus : Status)
    (location : option Location) (notes : option string)
    (updatedBy : UpdatedBy) (updatedByUser : option ObjectId)
    (s : Shipment) : Shipment :=
  let s1 := set_status newStatus s in
  let s2 := push_timeline
              (mkEntry newStatus (now env) location notes updatedBy updatedByUser)
              s1 in
  match newStatus with
  | picked => set_actualPickupDate (now env) s2
  | delivered => set_actualDeliveryDate (now env) s2
  | _ => s2
  end.

#[global] Arguments updateStatus : simpl never.

End ShipmentModel.

(** ** models/Driver.js and models/Client.js (the fields the core reads) *)

Module DriverModel.

Inductive Status := pending | approved | rejected | suspended.
Inductive KycStatus := kyc_pending | kyc_in_review | kyc_approved | kyc_rejected.

#[global] Instance Status_eq_dec : EqDecision Status.
Proof. solve_decision. Defined.
#[global] Instance KycStatus_eq_dec : EqDecision KycStatus.
Proof. solve_decision. Defined.

Record Driver := mkDriver {
  firstName : string;
  lastName : string;
  status : Status;
  kycStatus : KycStatus
}.

(** The [fullName] virtual. *)
Definition fullName (d : Driver) : string :=
  firstName d +:+ " " +:+ lastName d.

End DriverModel.

Module ClientModel.

(** [billingInfo.paymentTerms] and [Payment.terms] share one enumeration. *)
Inductive Terms := immediate | net_15 | net_30 | net_45 | net_60.

Record Client := mkClient {
  companyName : string;
  paymentTerms : option Terms     (* [billingInfo?.paymentTerms] *)
}.

End ClientModel.

(** ** routes/shipments.js *)

Module ShipmentRoutes.
Import ShipmentModel.

(** [Shipment.findById(id)] is [store !! id]. *)

(** [doc.save()] on a document read from the collection. *)
Definition save (env : Env) (id : ObjectId) (s : Shipment)
    (store : gmap ObjectId Shipment) : gmap ObjectId Shipment :=
  <[id := pre_save env false s]> store.

(** The validators of the schema on an item and on an address: [name]
    required, [quantity] at least 1, [weight] at least 0.1; [street],
    [city], [state] and [zipCode] required.  A required text fails when it
    is empty. *)
Definition item_ok (it : Item) : bool :=
  notEmpty (item_name it) && (1 <=? quantity it) && num_ge (weight it) 0.1.

Definition address_ok (a : Address) : bool :=
  notEmpty (street a) && notEmpty (city a) && notEmpty (state a)
  && notEmpty (zipCode a).

(** Mongoose's validation of a document about to be stored, on the paths
    of the record: [shipmentId], [trackingNumber] and [description]
    required, [description] of at most 500 characters, the items and the
    two addresses.  (The schema requires three more paths, which the record
    does not carry: the [country] of both addresses and
    [pricing.totalAmount].) *)
Definition validate (s : Shipment) : bool :=
  truthy_text (shipmentId s) && truthy_text (trackingNumber s)
  && notEmpty (description s) && (String.length (description s) <=? 500)%nat
  && forallb item_ok (items s)
  && address_ok (pickupAddress s) && address_ok (deliveryAddress s).

(** [Shipment.create(fields)]: the new document is validated, then the
    [pre('save')] hook runs, then it is stored under a new [_id].  [None]
    is the rejection with a [ValidationError]. *)
Definition create (env : Env) (s : Shipment) (store : gmap ObjectId Shipment)
  : option (ObjectId * Shipment * gmap ObjectId Shipment) :=
  if validate s then
    let id := fresh (dom store) in
    let doc := pre_save env true s in
    Some (id, doc, <[id := doc]> store)
  else None.

(** *** POST /api/shipments *)

Record CreateBody := mkCreateBody {
  cb_description : string;
  cb_items : list Item;
  cb_pickupAddress : Address;
  cb_deliveryAddress : Address;
  cb_serviceType : ServiceType;
  cb_priority : option Priority;
  cb_requestedPickupDate : Date;
  cb_requestedDeliveryDate : Date;
  cb_clientId : option ObjectId
}.

(** The per-item validation chain:
    [items.*.name] trimmed and not empty, [items.*.quantity] an integer of
    at least 1, [items.*.weight] a float of at least 0.1. *)
Definition valid_item (it : Item) : bool :=
  notEmpty (trim (item_name it))
  && (1 <=? quantity it)
  && isFloat_min 0.1 (weight it).

Definition valid_address (a : Address) : bool :=
  notEmpty (trim (street a)) && notEmpty (trim (city a))
  && notEmpty (trim (state a)) && notEmpty (trim (zipCode a)).

(** [validationResult(req).isEmpty()] for the creation route. *)
Definition valid_create (b : CreateBody) : bool :=
  isLength 10 500 (trim (cb_description b))
  && (1 <=? length (cb_items b))%nat
  && forallb valid_item (cb_items b)
  && valid_address (cb_pickupAddress b)
  && valid_address (cb_deliveryAddress b).

(** The sanitizers of the chain replace the fields of [req.body]. *)
Definition sanitize_item (it : Item) : Item :=
  mkItem (trim (item_name it)) (quantity it) (weight it) (value_amount it)
         (category it) (isFragile it).

Definition sanitize_address (a : Address) : Address :=
  mkAddress (trim (street a)) (trim (city a)) (trim (state a)) (trim (zipCode a)).

(** The [items.forEach] accumulation of the handler. *)
Definition add_weight (acc : Number) (it : Item) : Number :=
  (acc + weight it * num_of_int (quantity it))%float.

Definition add_value (acc : Number) (it : Item) : Number :=
  match value_amount it with
  | Some a => if falsy a then acc else (acc + a * num_of_int (quantity it))%float
  | None => acc
  end.

Definition compute_totalWeight (its : list Item) : Number :=
  fold_left add_weight its 0%float.
Definition compute_totalValue (its : list Item) : Number :=
  fold_left add_value its 0%float.

(** The handler, with the two identifiers of the object it gives to
    [Shipment.create] as parameters [sid] and [trk].  The handler of the
    source gives neither: it is [create_shipment] below. *)
Definition create_shipment_with (sid trk : option string)
    (env : Env) (who : Principal) (b : CreateBody)
    (store : gmap ObjectId Shipment)
  : Reply (ObjectId * Shipment) * gmap ObjectId Shipment :=
  if negb (valid_create b) then (fail 400 "Validation errors", store)
  else
    let pickupDate := cb_requestedPickupDate b in
    let deliveryDate := cb_requestedDeliveryDate b in
    if pickupDate <? now env then
      (fail 400 "Pickup date cannot be in the past", store)
    else if deliveryDate <=? pickupDate then
      (fail 400 "Delivery date must be after pickup date", store)
    else
      let its := map sanitize_item (cb_items b) in
      let totalWeight := compute_totalWeight its in
      let totalValue := compute_totalValue its in
      let clientId := if bool_decide (userType who = admin)
                      then cb_clientId b else Some (user_id who) in
      match clientId with
      | None => (fail 400 "Client ID is required", store)
      | Some cid =>
          let fields :=
            mkShipment sid trk cid None (trim (cb_description b)) its
              totalWeight totalValue
              (sanitize_address (cb_pickupAddress b))
              (sanitize_address (cb_deliveryAddress b))
              (cb_serviceType b)
              (default medium (cb_priority b))
              pending []
              (cb_requestedPickupDate b) (cb_requestedDeliveryDate b)
              None None [] [] in
          match create env fields store with
          | Some (id, doc, store') =>
              (ok 201 "Shipment created successfully" (id, doc), store')
          | None =>
              (* the [ValidationError] lands in the [catch] *)
              (fail 500 "Server error during shipment creation", store)
          end
      end.

(** POST /api/shipments as the source has it: [Shipment.create] is given
    no [shipmentId] and no [trackingNumber]. *)
Definition create_shipment : Env → Principal → CreateBody →
    gmap ObjectId Shipment → Reply (ObjectId * Shipment) * gmap ObjectId Shipment :=
  create_shipment_with None None.

(** *** PUT /api/shipments/:id/status *)

Record StatusBody := mkStatusBody {
  sb_status : Status;
  sb_notes : option string;
  sb_location : option Location
}.

(** The values [body('status').isIn([...])] lets through. *)
Definition accepted_statuses : list Status :=
  [assigned; picked; packed; processing; in_transit; out_for_delivery;
   delivered; failed; returned; cancelled].

Definition valid_status_body (b : StatusBody) : bool :=
  bool_decide (sb_status b ∈ accepted_statuses)
  && match sb_notes b with
     | Some n => isLength 0 500 (trim n)
     | None => true
     end.

(** The [validTransitions] table of the handler. *)
Definition validTransitions (from : Status) : list Status :=
  match from with
  | pending => [assigned; cancelled]
  | assigned => [picked; cancelled]
  | picked => [packed; processing; failed]
  | packed => [processing; in_transit]
  | processing => [in_transit; failed]
  | in_transit => [out_for_delivery; delivered; failed]
  | out_for_delivery => [delivered; failed; returned]
  | delivered => []
  | failed => [processing; cancelled]
  | returned => []
  | cancelled => []
  end.

(** [Shipment.findOne(query)]: [{_id}] and, for a driver, [{driver}] too.
    ([protect(['driver', 'admin'])] lets no client reach the handler.) *)
Definition find_for (who : Principal) (id : ObjectId)
    (store : gmap ObjectId Shipment) : option Shipment :=
  match store !! id with
  | Some s =>
      match userType who with
      | driver =>
          if bool_decide (driver_ref s = Some (user_id who)) then Some s else None
      | _ => Some s
      end
  | None => None
  end.

Definition update_status (env : Env) (who : Principal) (id : ObjectId)
    (b : StatusBody) (store : gmap ObjectId Shipment)
  : Reply Shipment * gmap ObjectId Shipment :=
  if negb (valid_status_body b) then (fail 400 "Validation errors", store)
  else
    match find_for who id store with
    | None => (fail 404 "Shipment not found or not authorized", store)
    | Some shipment =>
        if negb (bool_decide (sb_status b ∈ validTransitions (status shipment)))
        then (fail 400 ("Cannot transition from " +:+ status_name (status shipment)
                        +:+ " to " +:+ status_name (sb_status b)), store)
        else
          let shipment' :=
            updateStatus env (sb_status b) (sb_location b)
              (trim <$> sb_notes b) (updatedBy_of (userType who))
              (Some (user_id who)) shipment in
          let store' := save env id shipment' store in
          (ok 200 "Shipment status updated successfully"
              (pre_save env false shipment'), store')
    end.

(** *** PUT /api/shipments/:id/assign

    The only validator, [body('driverId').isMongoId()], holds of every
    [ObjectId]. *)

Definition assign_driver (env : Env) (who : Principal) (id : ObjectId)
    (driverId : ObjectId) (drivers : gmap ObjectId DriverModel.Driver)
    (store : gmap ObjectId Shipment)
  : Reply Shipment * gmap ObjectId Shipment :=
  match drivers !! driverId with
  | None => (fail 404 "Driver not found", store)
  | Some drv =>
      if negb (bool_decide (DriverModel.status drv = DriverModel.approved))
         || negb (bool_decide (DriverModel.kycStatus drv = DriverModel.kyc_approved))
      then (fail 400 "Driver is not approved or KYC not completed", store)
      else
        match store !! id with
        | None => (fail 404 "Shipment not found", store)
        | Some shipment =>
            if negb (bool_decide (status shipment = pending))
            then (fail 400 "Can only assign drivers to pending shipments", store)
            else
              let shipment1 := set_driver (Some driverId) shipment in
              let shipment2 :=
                updateStatus env assigned None
                  (Some ("Assigned to driver " +:+ DriverModel.fullName drv))
                  by_admin (Some (user_id who)) shipment1 in
              let store' := save env id shipment2 store in
              (ok 200 "Driver assigned successfully"
                  (pre_save env false shipment2), store')
        end
  end.

(** *** POST /api/shipments/:id/documents

    [req.files] as the [uploadShipmentDocuments] middleware leaves it: at
    most one file for each of the five configured fields, in the order of
    arrival.  [file_url] is what [getFileUrl] makes of the request and the
    path multer stored the file under. *)

Inductive DocumentField :=
| f_pickupReceipt | f_deliveryReceipt | f_invoice | f_insurance | f_customs.

Record UploadedFile := mkUploadedFile {
  fieldname : DocumentField;
  originalname : string;
  file_url : string
}.

(** [fieldName.replace(/([A-Z])/g, '_$1').toLowerCase()] *)
Definition document_type (f : DocumentField) : DocumentType :=
  match f with
  | f_pickupReceipt => pickup_receipt
  | f_deliveryReceipt => delivery_receipt
  | f_invoice => invoice
  | f_insurance => insurance
  | f_customs => customs
  end.

Definition model_of (t : UserType) : UserModel :=
  match t with driver => Driver_model | _ => Admin_model end.

Definition upload_documents (env : Env) (who : Principal) (id : ObjectId)
    (files : list UploadedFile) (store : gmap ObjectId Shipment)
  : Reply (list Document) * gmap ObjectId Shipment :=
  match find_for who id store with
  | None => (fail 404 "Shipment not found or not authorized", store)
  | Some shipment =>
      match files with
      | [] => (fail 400 "No files uploaded", store)
      | _ =>
          let documents :=
            map (λ file, mkDocument (document_type (fieldname file))
                           (originalname file) (file_url file) (now env)
                           (user_id who) (model_of (userType who)))
                files in
          let shipment' := push_documents documents shipment in
          (ok 200 "Documents uploaded successfully"
              (ShipmentModel.documents (pre_save env false shipment')),
           save env id shipment' store)
      end
  end.

(** *** POST /api/shipments/:id/photos

    Behind [protect(['driver'])]: the caller is a driver.  The fields of a
    multipart body are texts; [castNumber] is Mongoose's cast of a text to
    a [Number], which fails on a text that is no number. *)

Record PhotoBody := mkPhotoBody {
  pb_type : PhotoType;
  pb_description : option string;
  pb_latitude : option string;
  pb_longitude : option string
}.

Definition valid_photo_body (b : PhotoBody) : bool :=
  match pb_description b with
  | Some d => isLength 0 200 (trim d)
  | None => true
  end.

(** [latitude && longitude ? { latitude, longitude } : undefined], and then
    the cast of the two texts.  The outer [None] is a failed cast. *)
Definition photo_location_of (castNumber : string → option Number)
    (b : PhotoBody) : option (option (Number * Number)) :=
  if truthy_text (pb_latitude b) && truthy_text (pb_longitude b) then
    match castNumber (default "" (pb_latitude b)),
          castNumber (default "" (pb_longitude b)) with
    | Some la, Some lo => Some (Some (la, lo))
    | _, _ => None
    end
  else Some None.

Definition upload_photos (castNumber : string → option Number)
    (env : Env) (who : Principal) (id : ObjectId)
    (b : PhotoBody) (urls : list string) (store : gmap ObjectId Shipment)
  : Reply (list Photo) * gmap ObjectId Shipment :=
  if negb (valid_photo_body b) then (fail 400 "Validation errors", store)
  else
    match store !! id with
    | None => (fail 404 "Shipment not found or not authorized", store)
    | Some shipment =>
        if negb (bool_decide (driver_ref shipment = Some (user_id who)))
        then (fail 404 "Shipment not found or not authorized", store)
        else
          match urls with
          | [] => (fail 400 "No photos uploaded", store)
          | _ =>
              match photo_location_of castNumber b with
              | None =>
                  (* [save] rejects the photos: a [CastError] *)
                  (fail 500 "Server error during photo upload", store)
              | Some loc =>
                  let photos :=
                    map (λ url, mkPhoto (pb_type b) url (trim <$> pb_description b)
                                  (now env) loc (user_id who) Driver_model)
                        urls in
                  let shipment' := push_photos photos shipment in
                  (ok 200 "Photos uploaded successfully"
                      (ShipmentModel.photos (pre_save env false shipment')),
                   save env id shipment' store)
              end
          end
    end.

End ShipmentRoutes.

(** ** models/Payment.js *)

Module PaymentModel.
Import ClientModel.

Inductive Status :=
| pending | processing | completed | failed | cancelled
| refunded | partially_refunded.

#[global] Instance Status_eq_dec : EqDecision Status.
Proof. solve_decision. Defined.

Inductive UpdatedBy := by_system | by_admin | by_client | by_gateway.

Inductive RefundReason :=
| cancelled_shipment | service_issue | overcharge | duplicate_payment
| client_request | other_reason.

Inductive RefundMethod := original_method | refund_bank_transfer | refund_check | account_credit.

Inductive RefundStatus := r_pending | r_processing | r_completed | r_failed.

Inductive Method := credit_card | debit_card | bank_transfer | paypal | cash | check.

(** [paymentMethod.type] *)
Inductive PaymentMethodType :=
| pm_credit_card | pm_debit_card | pm_bank_transfer | pm_paypal | pm_stripe
| pm_cash | pm_check | pm_account_credit.

Inductive PartialStatus := p_completed | p_failed.

#[global] Instance RefundStatus_eq_dec : EqDecision RefundStatus.
Proof. solve_decision. Defined.
#[global] Instance PartialStatus_eq_dec : EqDecision PartialStatus.
Proof. solve_decision. Defined.

Record Amount := mkAmount {
  subtotal : Number;
  tax : Number;
  discount : Number;
  total : Number
}.

Record TimelineEntry := mkEntry {
  e_status : Status;
  e_timestamp : Date;
  e_notes : option string;
  e_amount : option Number;
  e_updatedBy : UpdatedBy;
  e_updatedByUser : option ObjectId
}.

Record Refund := mkRefund {
  refundId : string;
  r_amount : Number;
  reason : RefundReason;
  reasonDescription : option string;
  refundDate : Date;
  refundMethod : RefundMethod;
  r_status : RefundStatus;
  processedBy : ObjectId
}.

Record PartialPayment := mkPartial {
  pp_paymentId : string;
  pp_amount : Number;
  pp_paidDate : Date;
  pp_method : Method;
  pp_transactionId : option string;
  pp_status : PartialStatus
}.

Record Payment := mkPayment {
  paymentId : option string;
  transactionId : option string;
  client_ref : ObjectId;
  shipment_ref : ObjectId;
  amount : Amount;
  paymentMethod : option PaymentMethodType;   (* [paymentMethod.type] *)
  status : Status;
  timeline : list TimelineEntry;
  dueDate : Date;
  paidDate : option Date;
  terms : Terms;
  refunds : list Refund;
  partialPayments : list PartialPayment
}.

Definition set_paymentId (i : option string) (p : Payment) : Payment :=
  mkPayment i (transactionId p) (client_ref p) (shipment_ref p) (amount p)
    (paymentMethod p) (status p) (timeline p) (dueDate p) (paidDate p)
    (terms p) (refunds p) (partialPayments p).

Definition set_transactionId (t : option string) (p : Payment) : Payment :=
  mkPayment (paymentId p) t (client_ref p) (shipment_ref p) (amount p)
    (paymentMethod p) (status p) (timeline p) (dueDate p) (paidDate p)
    (terms p) (refunds p) (partialPayments p).

Definition set_amount (a : Amount) (p : Payment) : Payment :=
  mkPayment (paymentId p) (transactionId p) (client_ref p) (shipment_ref p) a
    (paymentMethod p) (status p) (timeline p) (dueDate p) (paidDate p)
    (terms p) (refunds p) (partialPayments p).

Definition set_status (st : Status) (p : Payment) : Payment :=
  mkPayment (paymentId p) (transactionId p) (client_ref p) (shipment_ref p)
    (amount p) (paymentMethod p) st (timeline p) (dueDate p) (paidDate p)
    (terms p) (refunds p) (partialPayments p).

Definition push_timeline (e : TimelineEntry) (p : Payment) : Payment :=
  mkPayment (paymentId p) (transactionId p) (client_ref p) (shipment_ref p)
    (amount p) (paymentMethod p) (status p) (timeline p ++ [e]) (dueDate p)
    (paidDate p) (terms p) (refunds p) (partialPayments p).

Definition set_paidDate (d : Date) (p : Payment) : Payment :=
  mkPayment (paymentId p) (transactionId p) (client_ref p) (shipment_ref p)
    (amount p) (paymentMethod p) (status p) (timeline p) (dueDate p) (Some d)
    (terms p) (refunds p) (partialPayments p).

Definition push_refund (r : Refund) (p : Payment) : Payment :=
  mkPayment (paymentId p) (transactionId p) (client_ref p) (shipment_ref p)
    (amount p) (paymentMethod p) (status p) (timeline p) (dueDate p)
    (paidDate p) (terms p) (refunds p ++ [r]) (partialPayments p).

Definition push_partial (x : PartialPayment) (p : Payment) : Payment :=
  mkPayment (paymentId p) (transactionId p) (client_ref p) (shipment_ref p)
    (amount p) (paymentMethod p) (status p) (timeline p) (dueDate p)
    (paidDate p) (terms p) (refunds p) (partialPayments p ++ [x]).

(** [paymentSchema.pre('save')].  [amountModified] is
    [this.isModified('amount')]: true when the document is created with an
    [amount], false when a handler saves a document whose [amount] it did
    not assign. *)
Definition pre_save (env : Env) (isNew amountModified : bool) (p : Payment) : Payment :=
  let p1 := if isNew && negb (truthy_text (paymentId p))
            then set_paymentId (Some (gen_paymentId env)) p else p in
  let a := amount p1 in
  let p2 := if amountModified && falsy (total a)
            then set_amount
                   (mkAmount (subtotal a) (tax a) (discount a)
                             (subtotal a + tax a - discount a)%float) p1
            else p1 in
  if isNew then
    push_timeline
      (mkEntry pending (now env) (Some "Payment record created") None by_system None)
      p2
  else p2.

(** [.reduce((total, x) => total + x.amount, 0)] *)
Definition sum_amounts (l : list Number) : Number :=
  fold_left PrimFloat.add l 0%float.

(** The [totalRefunded] virtual. *)
Definition totalRefunded (p : Payment) : Number :=
  sum_amounts
    (map r_amount
       (filter (λ r, r_status r = r_completed) (refunds p))).

(** The [remainingBalance] virtual. *)
Definition remainingBalance (p : Payment) : Number :=
  let totalPaid :=
    sum_amounts
      (map pp_amount
         (filter (λ x, pp_status x = p_completed) (partialPayments p))) in
  if bool_decide (status p = completed) then 0%float
  else (total (amount p) - totalPaid)%float.

(** [paymentSchema.methods.updateStatus] *)
Definition updateStatus (env : Env) (newStatus : Status) (notes : option string)
    (updatedBy : UpdatedBy) (updatedByUser : option ObjectId)
    (amt : option Number) (p : Payment) : Payment :=
  let p1 := set_status newStatus p in
  let p2 := push_timeline
              (mkEntry newStatus (now env) notes amt updatedBy updatedByUser) p1 in
  if bool_decide (newStatus = completed) then set_paidDate (now env) p2 else p2.

(** The argument of [addRefund]. *)
Record RefundData := mkRefundData {
  rd_amount : Number;
  rd_reason : RefundReason;
  rd_reasonDescription : option string;
  rd_refundMethod : RefundMethod;
  rd_processedBy : ObjectId
}.

(** [paymentSchema.methods.addRefund].  The pushed sub-document carries no
    [status], so the schema default [pending] applies, and no [refundDate],
    whose default is [Date.now]. *)
Definition addRefund (env : Env) (refundData : RefundData) (p : Payment) : Payment :=
  let p1 := push_refund
              (mkRefund (gen_refundId env) (rd_amount refundData)
                 (rd_reason refundData) (rd_reasonDescription refundData)
                 (now env) (rd_refundMethod refundData) r_pending
                 (rd_processedBy refundData)) p in
  let totalRefunded' := (totalRefunded p1 + rd_amount refundData)%float in
  if num_ge totalRefunded' (total (amount p1)) then set_status refunded p1
  else if num_gt totalRefunded' 0 then set_status partially_refunded p1
  else p1.

#[global] Arguments updateStatus : simpl never.
#[global] Arguments addRefund : simpl never.

End PaymentModel.

(** ** routes/payments.js *)

Module PaymentRoutes.
Import ClientModel PaymentModel.

Definition save (env : Env) (id : ObjectId) (p : Payment)
    (store : gmap ObjectId Payment) : gmap ObjectId Payment :=
  <[id := pre_save env false false p]> store.

(** Mongoose's validation of a document about to be stored, on the paths
    of the record: [paymentId] and [paymentMethod.type] required, and the
    four amounts at least 0. *)
Definition validate (p : Payment) : bool :=
  truthy_text (paymentId p) && bool_decide (is_Some (paymentMethod p))
  && num_ge (subtotal (amount p)) 0 && num_ge (tax (amount p)) 0
  && num_ge (discount (amount p)) 0 && num_ge (total (amount p)) 0.

(** [Payment.create(fields)]: the new document is validated, then the
    [pre('save')] hook runs, then it is stored under a new [_id].  [None]
    is the rejection with a [ValidationError]. *)
Definition create (env : Env) (p : Payment) (store : gmap ObjectId Payment)
  : option (ObjectId * Payment * gmap ObjectId Payment) :=
  if validate p then
    let id := fresh (dom store) in
    let doc := pre_save env true true p in
    Some (id, doc, <[id := doc]> store)
  else None.

(** [Payment.findOne({ shipment: shipmentId })], used for its truthiness. *)
Definition exists_for_shipment (shipmentId : ObjectId)
    (store : gmap ObjectId Payment) : bool :=
  bool_decide (map_Exists (λ _ p, shipment_ref p = shipmentId) store).

(** *** POST /api/payments *)

Record AmountBody := mkAmountBody {
  ab_subtotal : Number;
  ab_tax : option Number;
  ab_discount : option Number;
  ab_total : Number
}.

Record CreateBody := mkCreateBody {
  cb_shipmentId : ObjectId;
  cb_amount : AmountBody;
  cb_dueDate : Date;
  cb_terms : option Terms
}.

Definition valid_create (b : CreateBody) : bool :=
  isFloat_min 0 (ab_subtotal (cb_amount b)) && isFloat_min 0 (ab_total (cb_amount b)).

(** The schema defaults of [amount.tax] and [amount.discount] are 0. *)
Definition amount_of_body (a : AmountBody) : Amount :=
  mkAmount (ab_subtotal a) (default 0%float (ab_tax a))
           (default 0%float (ab_discount a)) (ab_total a).

(** [terms || shipment.client.billingInfo?.paymentTerms || 'net_30'] *)
Definition choose_terms (explicit : option Terms) (cl : Client) : Terms :=
  match explicit with
  | Some t => t
  | None => match paymentTerms cl with
            | Some t => t
            | None => net_30
            end
  end.

(** The handler, with the [paymentId] and the [paymentMethod.type] of the
    object it gives to [Payment.create] as parameters [pid] and [method].
    The handler of the source gives neither: it is [create_payment]
    below. *)
Definition create_payment_with (pid : option string)
    (method : option PaymentMethodType) (env : Env) (b : CreateBody)
    (shipments : gmap ObjectId ShipmentModel.Shipment)
    (clients : gmap ObjectId Client)
    (store : gmap ObjectId Payment)
  : Reply (ObjectId * Payment) * gmap ObjectId Payment :=
  if negb (valid_create b) then (fail 400 "Validation errors", store)
  else
    match shipments !! cb_shipmentId b with
    | None => (fail 404 "Shipment not found", store)
    | Some shipment =>
        if exists_for_shipment (cb_shipmentId b) store
        then (fail 400 "Payment already exists for this shipment", store)
        else
          (* [populate('client')] leaves [null] when the client is gone, and
             [shipment.client._id] then throws into the [catch] *)
          match clients !! ShipmentModel.client_ref shipment with
          | None => (fail 500 "Server error creating payment", store)
          | Some cl =>
              let fields :=
                mkPayment pid None (ShipmentModel.client_ref shipment)
                  (cb_shipmentId b) (amount_of_body (cb_amount b)) method
                  pending [] (cb_dueDate b) None
                  (choose_terms (cb_terms b) cl) [] [] in
              match create env fields store with
              | Some (id, doc, store') =>
                  (ok 201 "Payment created successfully" (id, doc), store')
              | None =>
                  (* the [ValidationError] lands in the [catch] *)
                  (fail 500 "Server error creating payment", store)
              end
          end
    end.

(** POST /api/payments as the source has it: [Payment.create] is given no
    [paymentId] and no [paymentMethod]. *)
Definition create_payment : Env → CreateBody →
    gmap ObjectId ShipmentModel.Shipment → gmap ObjectId Client →
    gmap ObjectId Payment → Reply (ObjectId * Payment) * gmap ObjectId Payment :=
  create_payment_with None None.

(** *** PUT /api/payments/:id/status

    The handler also copies an optional [gatewayResponse] into the
    document; that field is not part of the model. *)

Record StatusBody := mkStatusBody {
  sb_status : Status;
  sb_notes : option string;
  sb_transactionId : option string
}.

Definition settable_statuses : list Status := [processing; completed; failed; cancelled].

Definition valid_optional (check : string → bool) (o : option string) : bool :=
  match o with Some s => check (trim s) | None => true end.

Definition valid_status_body (b : StatusBody) : bool :=
  bool_decide (sb_status b ∈ settable_statuses)
  && valid_optional (isLength 0 500) (sb_notes b)
  && valid_optional notEmpty (sb_transactionId b).

Definition update_status (env : Env) (who : Principal) (id : ObjectId)
    (b : StatusBody) (store : gmap ObjectId Payment)
  : Reply Payment * gmap ObjectId Payment :=
  if negb (valid_status_body b) then (fail 400 "Validation errors", store)
  else
    match store !! id with
    | None => (fail 404 "Payment not found", store)
    | Some payment =>
        let p1 := updateStatus env (sb_status b) (trim <$> sb_notes b) by_admin
                    (Some (user_id who)) None payment in
        let p2 := if truthy_text (trim <$> sb_transactionId b)
                  then set_transactionId (trim <$> sb_transactionId b) p1
                  else p1 in
        (ok 200 "Payment status updated successfully" (pre_save env false false p2),
         save env id p2 store)
    end.

(** *** POST /api/payments/:id/refund *)

Record RefundBody := mkRefundBody {
  rb_amount : Number;
  rb_reason : RefundReason;
  rb_reasonDescription : option string;
  rb_refundMethod : option RefundMethod
}.

Definition valid_refund_body (b : RefundBody) : bool :=
  isFloat_min 0.01 (rb_amount b)
  && valid_optional (isLength 0 500) (rb_reasonDescription b).

Definition refund (env : Env) (who : Principal) (id : ObjectId)
    (b : RefundBody) (store : gmap ObjectId Payment)
  : Reply Payment * gmap ObjectId Payment :=
  if negb (valid_refund_body b) then (fail 400 "Validation errors", store)
  else
    match store !! id with
    | None => (fail 404 "Payment not found", store)
    | Some payment =>
        if negb (bool_decide (status payment = completed))
        then (fail 400 "Can only refund completed payments", store)
        else
          let totalRefunded := totalRefunded payment in
          if num_gt (rb_amount b) (total (amount payment) - totalRefunded)%float
          then (fail 400 "Refund amount exceeds available balance", store)
          else
            let payment' :=
              addRefund env
                (mkRefundData (rb_amount b) (rb_reason b)
                   (trim <$> rb_reasonDescription b)
                   (default original_method (rb_refundMethod b))
                   (user_id who))
                payment in
            (ok 200 "Refund processed successfully" (pre_save env false false payment'),
             save env id payment' store)
    end.

(** *** POST /api/payments/:id/partial

    [show_number] is the conversion of a number to text that the template
    literal of the timeline note applies. *)

Record PartialBody := mkPartialBody {
  pb_amount : Number;
  pb_method : Method;
  pb_transactionId : option string
}.

Definition valid_partial_body (b : PartialBody) : bool :=
  isFloat_min 0.01 (pb_amount b)
  && valid_optional notEmpty (pb_transactionId b).

Definition record_partial (show_number : Number → string)
    (env : Env) (who : Principal) (id : ObjectId)
    (b : PartialBody) (store : gmap ObjectId Payment)
  : Reply (Payment * Number) * gmap ObjectId Payment :=
  if negb (valid_partial_body b) then (fail 400 "Validation errors", store)
  else
    match store !! id with
    | None => (fail 404 "Payment not found", store)
    | Some payment =>
        let remainingBalance := remainingBalance payment in
        if num_gt (pb_amount b) remainingBalance
        then (fail 400 "Payment amount exceeds remaining balance", store)
        else
          let p1 := push_partial
                      (mkPartial (gen_partialId env) (pb_amount b) (now env)
                         (pb_method b) (trim <$> pb_transactionId b) p_completed)
                      payment in
          let newRemainingBalance := (remainingBalance - pb_amount b)%float in
          let p2 :=
            if num_le newRemainingBalance 0
            then updateStatus env completed
                   (Some "Payment completed with partial payments") by_admin
                   (Some (user_id who)) None p1
            else updateStatus env processing
                   (Some ("Partial payment received: $" +:+ show_number (pb_amount b)))
                   by_admin
                   (Some (user_id who)) (Some (pb_amount b)) p1 in
          (ok 200 "Partial payment recorded successfully"
              (pre_save env false false p2, newRemainingBalance),
           save env id p2 store)
    end.

End PaymentRoutes.

(** ** models/Admin.js *)

Module AdminModel.

Inductive Status := active | inactive | suspended | terminated.

#[global] Instance Status_eq_dec : EqDecision Status.
Proof. solve_decision. Defined.

Record LoginAttempts := mkAttempts {
  count : Z;
  lastAttempt : option Date;
  lockedUntil : option Date
}.

Record Session := mkSession {
  sessionId : string;
  deviceInfo : string;
  loginTime : Date;
  lastActivity : Date;
  isActive : bool
}.

Record Admin := mkAdmin {
  email : string;
  password : string;              (* the stored bcrypt hash *)
  status : Status;
  lastLogin : option Date;
  loginAttempts : LoginAttempts;
  activeSessions : list Session;
  totalLogins : Z                 (* [metrics.totalLogins] *)
}.

(** The [isLocked] virtual:
    [!!(lockedUntil && lockedUntil > Date.now())]. *)
Definition isLocked (env : Env) (a : Admin) : bool :=
  match lockedUntil (loginAttempts a) with
  | Some t => now env <? t
  | None => false
  end.

(** [array.slice(-n)]: the last [n] elements. *)
Definition slice_last {A} (n : nat) (l : list A) : list A :=
  drop (length l - n) l.

(** [adminSchema.methods.handleLoginAttempt] *)
Definition handleLoginAttempt (env : Env) (success : bool) (device : string)
    (a : Admin) : Admin :=
  if success then
    let sessions := activeSessions a ++
                    [mkSession (gen_sessionId env) device (now env) (now env) true] in
    let sessions' := if (5 <? length sessions)%nat
                     then slice_last 5 sessions else sessions in
    mkAdmin (email a) (password a) (status a) (Some (now env))
            (mkAttempts 0 (lastAttempt (loginAttempts a)) None)
            sessions' (totalLogins a + 1)
  else
    let n := count (loginAttempts a) + 1 in
    let locked := if 5 <=? n then Some (now env + 30 * 60 * 1000)
                  else lockedUntil (loginAttempts a) in
    mkAdmin (email a) (password a) (status a) (lastLogin a)
            (mkAttempts n (Some (now env)) locked)
            (activeSessions a) (totalLogins a).

End AdminModel.

(** ** routes/auth.js: POST /api/auth/login, at [userType = 'admin'] *)

Module AuthRoutes.
Import AdminModel.

(** The library functions the handler calls: the e-mail check and
    normalisation of express-validator, and [bcrypt.compare] applied to a
    candidate password and a stored hash. *)
Record Library := mkLibrary {
  isEmail : string → bool;
  normalizeEmail : string → string;
  bcrypt_compare : string → string → bool
}.

Record LoginBody := mkLoginBody {
  lb_email : string;
  lb_password : string;
  lb_userAgent : string
}.

Definition valid_login_body (lib : Library) (b : LoginBody) : bool :=
  isEmail lib (lb_email b) && notEmpty (lb_password b).

(** [Admin.findOne({ email })] *)
Definition find_by_email (e : string) (store : gmap ObjectId Admin)
  : option (ObjectId * Admin) :=
  snd <$> list_find (λ ia, email ia.2 = e) (map_to_list store).

Definition login (lib : Library) (env : Env) (b : LoginBody)
    (store : gmap ObjectId Admin) : Reply ObjectId * gmap ObjectId Admin :=
  if negb (valid_login_body lib b) then (fail 400 "Validation errors", store)
  else
    match find_by_email (normalizeEmail lib (lb_email b)) store with
    | None => (fail 401 "Invalid credentials", store)
    | Some (id, user) =>
        let isMatch := bcrypt_compare lib (lb_password b) (password user) in
        if negb isMatch then
          (fail 401 "Invalid credentials",
           <[id := handleLoginAttempt env false "" user]> store)
        else if bool_decide (status user = suspended)
                || bool_decide (status user = inactive)
                || bool_decide (status user = terminated)
        then (fail 401 "Account is not active", store)
        else if isLocked env user then
          (fail 401 "Account is temporarily locked due to multiple failed login attempts",
           store)
        else
          (* [sendTokenResponse(user, 200, res, userType)] *)
          (ok 200 "" id,
           <[id := handleLoginAttempt env true (lb_userAgent b) user]> store)
    end.

End AuthRoutes.

(** ** Histories: the collections the handlers can produce *)

Module ShipmentHistory.
Import ShipmentModel ShipmentRoutes.

(** One request served by one of the handlers that write a shipment:
    status change, driver assignment and the two uploads, and creation.
    The creation handler of the source stores nothing (it gives
    [Shipment.create] no identifiers), so every stored shipment came in
    some other way; [step_create] lets one in as the handler builds it, for
    any identifiers, the handler's own choice of none included.  What is
    proved of every history therefore holds of those the handlers of the
    source alone can produce. *)
Inductive step : relation (gmap ObjectId Shipment) :=
| step_create sid trk env who b store :
    step store (create_shipment_with sid trk env who b store).2
| step_status env who id b store :
    step store (update_status env who id b store).2
| step_assign env who id driverId drivers store :
    step store (assign_driver env who id driverId drivers store).2
| step_documents env who id files store :
    step store (upload_documents env who id files store).2
| step_photos castNumber env who id b urls store :
    step store (upload_photos castNumber env who id b urls store).2.

(** The collections reachable from the empty one. *)
Definition reachable : gmap ObjectId Shipment → Prop := rtc step ∅.

(** [status] agrees with a non-empty timeline. *)
Definition consistent (s : Shipment) : Prop :=
  timeline s ≠ [] ∧ e_status <$> last (timeline s) = Some (status s).

(** A document as the handlers write it: either new and consistent with
    the single initial entry, or an old one with one more entry and
    consistent, or an old one with its status and timeline as they were. *)
Definition written (store : gmap ObjectId Shipment) (id : ObjectId) (s : Shipment) : Prop :=
  (consistent s ∧ store !! id = None ∧ status s = pending ∧ driver_ref s = None
   ∧ ∃ e, timeline s = [e] ∧ e_status e = pending)
  ∨ (consistent s ∧ ∃ s0 e, store !! id = Some s0 ∧ timeline s = timeline s0 ++ [e])
  ∨ (∃ s0, store !! id = Some s0 ∧ timeline s = timeline s0 ∧ status s = status s0).

(** What holds of every stored shipment. *)
Definition well_tracked (s : Shipment) : Prop :=
  consistent s ∧ e_status <$> head (timeline s) = Some pending.

End ShipmentHistory.

Module PaymentHistory.
Import PaymentModel PaymentRoutes.

(** One request served by one of the handlers that write a payment.  As
    for shipments, the creation handler of the source stores nothing, and
    [step_create] lets a payment in as the handler builds it, for any
    [paymentId] and [paymentMethod.type]. *)
Inductive step : relation (gmap ObjectId Payment) :=
| step_create pid method env b shipments clients store :
    step store (create_payment_with pid method env b shipments clients store).2
| step_status env who id b store :
    step store (update_status env who id b store).2
| step_refund env who id b store :
    step store (refund env who id b store).2
| step_partial show env who id b store :
    step store (record_partial show env who id b store).2.

Definition reachable : gmap ObjectId Payment → Prop := rtc step ∅.

(** At most one payment refers to a shipment. *)
Definition one_per_shipment (store : gmap ObjectId Payment) : Prop :=
  ∀ i j p q, store !! i = Some p → store !! j = Some q →
             shipment_ref p = shipment_ref q → i = j.

(** A handler that succeeds on an existing payment keeps its shipment and
    amount and at most appends one refund, which is then [pending]. *)
Definition updated (p0 p : Payment) : Prop :=
  shipment_ref p = shipment_ref p0
  ∧ amount p = amount p0
  ∧ (refunds p = refunds p0
     ∨ ∃ r, refunds p = refunds p0 ++ [r] ∧ r_status r = r_pending).

(** A payment as the creation handler stores it. *)
Definition created (store : gmap ObjectId Payment) (id : ObjectId) (p : Payment) : Prop :=
  store !! id = None
  ∧ refunds p = []
  ∧ ∀ j q, store !! j = Some q → shipment_ref q ≠ shipment_ref p.

Definition refunds_pending (p : Payment) : Prop :=
  Forall (λ r, r_status r = r_pending) (refunds p).

End PaymentHistory.

Module AdminHistory.
Import AdminModel AuthRoutes.






Definition invalid_credentials : Reply ObjectId := fail 401 "Invalid credentials".



End AdminHistory.

(** ** The specification's own tables, to compare the code with *)

Module ShipmentSpec.
Import ShipmentModel.

(** The adjacency table of section 4.1 of the specification, as the list
    of its permitted pairs. *)
Definition adjacency_4_1 : list (Status * Status) :=
  [ (pending, assigned); (pending, cancelled);
    (assigned, picked); (assigned, cancelled);
    (picked, packed); (picked, processing); (picked, failed);
    (packed, processing); (packed, in_transit);
    (processing, in_transit); (processing, failed);
    (in_transit, out_for_delivery); (in_transit, delivered); (in_transit, failed);
    (out_for_delivery, delivered); (out_for_delivery, failed);
    (out_for_delivery, returned);
    (failed, processing); (failed, cancelled) ].

End ShipmentSpec.

(** ** Further parts of the code *)

(** *** Pagination of the list handlers (GET /api/shipments, GET /api/payments) *)

Module Paging.

(** [Math.ceil(a / b)] for an integer [a] and a positive integer [b]. *)
Definition ceil_div (a b : Z) : Z := - ((- a) / b).

Definition ms_per_day : Z := 1000 * 60 * 60 * 24.








End Paging.

(** *** Shipments: virtuals and the read handler *)

Module ShipmentViews.
Import ShipmentModel ShipmentRoutes.

(** The [estimatedTransitTime] virtual.  Both dates are required fields of
    the schema and are always there in the model, so the [null] branch of
    the getter does not arise. *)
Definition estimatedTransitTime (s : Shipment) : Z :=
  Paging.ceil_div (requestedDeliveryDate s - requestedPickupDate s) Paging.ms_per_day.

(** GET /api/shipments/:id: the query is [{_id}], with [{driver}] for a
    driver and [{client}] for a client. *)
Definition find_visible (who : Principal) (id : ObjectId)
    (store : gmap ObjectId Shipment) : option Shipment :=
  match store !! id with
  | Some s =>
      match userType who with
      | driver =>
          if bool_decide (driver_ref s = Some (user_id who)) then Some s else None
      | client =>
          if bool_decide (client_ref s = user_id who) then Some s else None
      | admin => Some s
      end
  | None => None
  end.

Definition get_shipment (who : Principal) (id : ObjectId)
    (store : gmap ObjectId Shipment) : Reply Shipment :=
  match find_visible who id store with
  | None => fail 404 "Shipment not found"
  | Some shipment => ok 200 "" shipment
  end.

(** The statuses of a timeline, oldest first. *)
Definition statuses (s : Shipment) : list Status := e_status <$> timeline s.

(** Each status of the list is permitted after the one before it. *)
Fixpoint follows_table (l : list Status) : Prop :=
  match l with
  | a :: (b :: _) as rest => b ∈ validTransitions a ∧ follows_table rest
  | _ => True
  end.

(** The fields no handler writes after creation. *)
Definition same_consignment (s0 s : Shipment) : Prop :=
  shipmentId s = shipmentId s0 ∧ trackingNumber s = trackingNumber s0
  ∧ client_ref s = client_ref s0 ∧ description s = description s0
  ∧ items s = items s0
  ∧ totalWeight s = totalWeight s0 ∧ totalValue s = totalValue s0
  ∧ pickupAddress s = pickupAddress s0 ∧ deliveryAddress s = deliveryAddress s0
  ∧ serviceType s = serviceType s0 ∧ priority s = priority s0
  ∧ requestedPickupDate s = requestedPickupDate s0
  ∧ requestedDeliveryDate s = requestedDeliveryDate s0.

(** A shipment one successful status change later. *)
Definition advanced (s0 s : Shipment) (e : TimelineEntry) : Prop :=
  timeline s = timeline s0 ++ [e]
  ∧ status s = e_status e
  ∧ e_status e ∈ validTransitions (status s0)
  ∧ same_consignment s0 s
  ∧ actualPickupDate s
    = (if bool_decide (e_status e = picked) then Some (e_timestamp e)
       else actualPickupDate s0)
  ∧ actualDeliveryDate s
    = (if bool_decide (e_status e = delivered) then Some (e_timestamp e)
       else actualDeliveryDate s0)
  ∧ (driver_ref s = driver_ref s0
     ∨ (status s0 = pending ∧ e_status e = assigned ∧ is_Some (driver_ref s))).

(** The dates stamped so far agree with the timeline. *)
Definition stamped (s : Shipment) : Prop :=
  (picked ∈ statuses s → is_Some (actualPickupDate s))
  ∧ (delivered ∈ statuses s → is_Some (actualDeliveryDate s)).

Definition terminal (st : Status) : Prop :=
  st = delivered ∨ st = returned ∨ st = cancelled.

(** A shipment after uploads: documents and photos appended to, and the
    rest as it was. *)
Definition filed (s0 s : Shipment) : Prop :=
  same_consignment s0 s
  ∧ driver_ref s = driver_ref s0
  ∧ status s = status s0 ∧ timeline s = timeline s0
  ∧ actualPickupDate s = actualPickupDate s0
  ∧ actualDeliveryDate s = actualDeliveryDate s0
  ∧ documents s0 `prefix_of` documents s
  ∧ photos s0 `prefix_of` photos s.

(** What the timeline must already hold, given the current status. *)
Definition milestones (s : Shipment) : Prop :=
  (picked ∈ statuses s →
   status s ≠ pending ∧ status s ≠ assigned
   ∧ (status s = cancelled → failed ∈ statuses s))
  ∧ (status s ≠ pending → status s ≠ assigned → status s ≠ cancelled →
     picked ∈ statuses s)
  ∧ (status s ≠ pending → status s ≠ cancelled → assigned ∈ statuses s)
  ∧ (status s = in_transit ∨ status s = out_for_delivery
     ∨ status s = delivered ∨ status s = returned →
     in_transit ∈ statuses s).

End ShipmentViews.

(** *** Payments: virtuals and what the ledger keeps *)

Module PaymentViews.
Import PaymentModel PaymentRoutes.

(** The [daysOverdue] virtual; [dueDate] is a required field. *)
Definition daysOverdue (env : Env) (p : Payment) : Z :=
  if bool_decide (status p = completed) then 0
  else if dueDate p <? now env
       then Paging.ceil_div (now env - dueDate p) Paging.ms_per_day
       else 0.

(** The [totalPaid] of the [remainingBalance] getter. *)
Definition totalPaid (p : Payment) : Number :=
  sum_amounts
    (map pp_amount (filter (λ x, pp_status x = p_completed) (partialPayments p))).

(** The statuses [updateStatus] is called with: those the status route
    lets through, and [completed] / [processing] of the partial route. *)
Definition recorded (st : Status) : Prop :=
  st = pending ∨ st = processing ∨ st = completed ∨ st = failed ∨ st = cancelled.

(** What every stored payment satisfies. *)
Definition ledger_ok (p : Payment) : Prop :=
  Forall (λ x, pp_status x = p_completed ∧ isFloat_min 0.01 (pp_amount x) = true)
         (partialPayments p)
  ∧ (status p = completed → is_Some (paidDate p))
  ∧ Forall (λ e, recorded (e_status e)) (timeline p)
  ∧ (refunds p = [] → e_status <$> last (timeline p) = Some (status p)).

(** What a handler may change of a stored payment: nothing of its
    identity and amount, and the three logs only by appending. *)
Definition grown (p0 p : Payment) : Prop :=
  paymentId p = paymentId p0 ∧ client_ref p = client_ref p0
  ∧ shipment_ref p = shipment_ref p0 ∧ amount p = amount p0
  ∧ dueDate p = dueDate p0 ∧ terms p = terms p0
  ∧ timeline p0 `prefix_of` timeline p
  ∧ refunds p0 `prefix_of` refunds p
  ∧ partialPayments p0 `prefix_of` partialPayments p.

(** The four ways a handler rewrites a stored payment: the status route
    (which may also set the transaction id), the refund route and the
    partial-payment route, each after its checks. *)
Inductive touched (env : Env) : Payment → Payment → Prop :=
| touched_status st n u p :
    st ∈ settable_statuses →
    touched env p (updateStatus env st n by_admin u None p)
| touched_status_txn st n u t p :
    st ∈ settable_statuses →
    touched env p (set_transactionId t (updateStatus env st n by_admin u None p))
| touched_refund rd p :
    status p = completed →
    isFloat_min 0.01 (rd_amount rd) = true →
    num_gt (rd_amount rd) (total (amount p) - totalRefunded p)%float = false →
    touched env p (addRefund env rd p)
| touched_partial x st n u amt p :
    pp_status x = p_completed →
    isFloat_min 0.01 (pp_amount x) = true →
    num_gt (pp_amount x) (remainingBalance p) = false →
    st = completed ∨ st = processing →
    touched env p (updateStatus env st n by_admin u amt (push_partial x p)).

(** A payment as creation stores it. *)
Definition opened (p : Payment) : Prop :=
  status p = pending ∧ paidDate p = None
  ∧ refunds p = [] ∧ partialPayments p = []
  ∧ ∃ e, timeline p = [e] ∧ e_status e = pending.

End PaymentViews.

(** *** Administrators: permissions, activity log, sessions *)

Module AccessControl.

Inductive Role := super_admin | admin_role | manager | operator.

#[global] Instance Role_eq_dec : EqDecision Role.
Proof. solve_decision. Defined.

Inductive ModuleName :=
| m_drivers | m_clients | m_shipments | m_payments | m_reports | m_settings | m_users.

#[global] Instance ModuleName_eq_dec : EqDecision ModuleName.
Proof. solve_decision. Defined.

Inductive Action := a_create | a_read | a_update | a_delete | a_approve | a_reject.

#[global] Instance Action_eq_dec : EqDecision Action.
Proof. solve_decision. Defined.

Record Permission := mkPermission {
  perm_module : ModuleName;
  perm_actions : list Action
}.

(** The part of an administrator document the permission checks read. *)
Record Grants := mkGrants {
  role : Role;
  permissions : list Permission
}.

(** [adminSchema.methods.hasPermission]: [find] returns the first entry
    for the module. *)
Definition hasPermission (g : Grants) (m : ModuleName) (a : Action) : bool :=
  if bool_decide (role g = super_admin) then true
  else match list_find (λ p, perm_module p = m) (permissions g) with
       | Some (_, modulePermission) => bool_decide (a ∈ perm_actions modulePermission)
       | None => false
       end.

Definition role_name (r : Role) : string :=
  match r with
  | super_admin => "super_admin" | admin_role => "admin"
  | manager => "manager" | operator => "operator"
  end.

Definition module_name (m : ModuleName) : string :=
  match m with
  | m_drivers => "drivers" | m_clients => "clients" | m_shipments => "shipments"
  | m_payments => "payments" | m_reports => "reports" | m_settings => "settings"
  | m_users => "users"
  end.

Definition action_name (a : Action) : string :=
  match a with
  | a_create => "create" | a_read => "read" | a_update => "update"
  | a_delete => "delete" | a_approve => "approve" | a_reject => "reject"
  end.

(** What a middleware does: pass on ([next()]) or answer. *)
Inductive Gate := pass | deny (code : nat) (message : string).

(** The [checkPermission(module, action)] middleware; [g] is [req.user]. *)
Definition checkPermission (m : ModuleName) (a : Action)
    (t : UserType) (g : Grants) : Gate :=
  if negb (bool_decide (t = admin)) then deny 403 "Access denied. Admin role required."
  else if negb (hasPermission g m a)
       then deny 403 ("Permission denied. Required: " +:+ action_name a
                      +:+ " access to " +:+ module_name m +:+ " module")
  else pass.

(** The [authorize(...roles)] middleware. *)
Definition authorize (roles : list Role) (t : UserType) (g : Grants) : Gate :=
  if negb (bool_decide (t = admin)) then deny 403 "Access denied. Admin role required."
  else if negb (bool_decide (role g ∈ roles))
       then deny 403 ("User role " +:+ role_name (role g)
                      +:+ " is not authorized to access this route")
  else pass.

End AccessControl.

Module ActivityLog.

Record Activity := mkActivity {
  act_action : string;
  act_module : string;
  act_targetId : option string;
  act_description : string;
  act_success : bool;
  act_errorMessage : option string
}.

(** The part of an administrator document [logActivity] writes. *)
Record Audit := mkAudit {
  activityLog : list Activity;
  totalActions : Z;              (* [metrics.totalActions] *)
  lastActive : option Date
}.

(** [adminSchema.methods.logActivity] *)
Definition logActivity (env : Env) (entry : Activity) (a : Audit) : Audit :=
  let log := activityLog a ++ [entry] in
  let log' := if (1000 <? length log)%nat
              then AdminModel.slice_last 1000 log else log in
  mkAudit log' (totalActions a + 1) (Some (now env)).

End ActivityLog.

Module Sessions.
Import AdminModel.

Definition deactivate (s : Session) : Session :=
  mkSession (sessionId s) (deviceInfo s) (loginTime s) (lastActivity s) false.

(** [find(s => s.sessionId === sessionId)] followed by
    [session.isActive = false]: the first match is changed in place. *)
Fixpoint end_first (sid : string) (l : list Session) : list Session :=
  match l with
  | [] => []
  | s :: rest =>
      if bool_decide (sessionId s = sid) then deactivate s :: rest
      else s :: end_first sid rest
  end.

(** [adminSchema.methods.endSession] *)
Definition endSession (sid : string) (a : Admin) : Admin :=
  mkAdmin (email a) (password a) (status a) (lastLogin a) (loginAttempts a)
          (end_first sid (activeSessions a)) (totalLogins a).

End Sessions.

(** *** routes/auth.js: PUT /api/auth/profile, for a driver *)

Module Profile.
Import DriverModel.

(** The keys of [req.body] that are fields of the modelled document. *)
Record Updates := mkUpdates {
  u_firstName : option string;
  u_lastName : option string;
  u_status : option Status;
  u_kycStatus : option KycStatus
}.

(** [delete updates.status] (the other deleted keys, [password], [email],
    [role] and [permissions], are not fields of the modelled document). *)
Definition strip (u : Updates) : Updates :=
  mkUpdates (u_firstName u) (u_lastName u) None (u_kycStatus u).

(** [Object.keys(updates).forEach(key => user[key] = updates[key])] *)
Definition apply_updates (u : Updates) (d : Driver) : Driver :=
  mkDriver (default (firstName d) (u_firstName u))
           (default (lastName d) (u_lastName u))
           (default (status d) (u_status u))
           (default (kycStatus d) (u_kycStatus u)).

(** The handler: [user] is [req.user], the document [protect] loaded
    from key [id]; [user.save()] writes it back there. *)
Definition update_profile (id : ObjectId) (user : Driver) (u : Updates)
    (drivers : gmap ObjectId Driver) : Reply Driver * gmap ObjectId Driver :=
  let user' := apply_updates (strip u) user in
  (ok 200 "Profile updated successfully" user', <[id := user']> drivers).

End Profile.

(** *** routes/auth.js: PUT /api/auth/profile, for an administrator *)

Module AdminProfile.
Import AdminModel.

(** The keys of [req.body] that are fields of the modelled document.  A
    [loginAttempts] key carries the whole record, each of its three fields
    named (a date that is not there as [null]). *)
Record Updates := mkUpdates {
  u_email : option string;
  u_password : option string;
  u_status : option Status;
  u_lastLogin : option Date;
  u_loginAttempts : option LoginAttempts
}.

(** [delete updates.password], [delete updates.email] and
    [delete updates.status] (the other two deleted keys, [role] and
    [permissions], are not fields of the modelled document). *)
Definition strip (u : Updates) : Updates :=
  mkUpdates None None None (u_lastLogin u) (u_loginAttempts u).

(** [Object.keys(updates).forEach(key => user[key] = updates[key])] *)
Definition apply_updates (u : Updates) (a : Admin) : Admin :=
  mkAdmin (default (email a) (u_email u))
          (default (password a) (u_password u))
          (default (status a) (u_status u))
          (match u_lastLogin u with Some t => Some t | None => lastLogin a end)
          (default (loginAttempts a) (u_loginAttempts u))
          (activeSessions a) (totalLogins a).

(** The [protect] middleware for a token that names administrator [id],
    and then the handler: [req.user] is the document found, and
    [user.save()] writes it back. *)
Definition update_profile (id : ObjectId) (u : Updates)
    (admins : gmap ObjectId Admin) : Reply Admin * gmap ObjectId Admin :=
  match admins !! id with
  | None => (fail 401 "User not found", admins)
  | Some user =>
      if bool_decide (status user = suspended)
         || bool_decide (status user = inactive)
         || bool_decide (status user = terminated)
      then (fail 401 "Account is not active", admins)
      else
        let user' := apply_updates (strip u) user in
        (ok 200 "Profile updated successfully" user', <[id := user']> admins)
  end.

End AdminProfile.

(** *** utils/fileUpload.js *)

Module Upload.

(** [haystack.includes(needle)] *)
Fixpoint includes (needle haystack : string) : bool :=
  String.prefix needle haystack
  || match haystack with
     | EmptyString => false
     | String _ rest => includes needle rest
     end.

Definition image_types : list string :=
  ["image/jpeg"; "image/jpg"; "image/png"; "image/gif"; "image/webp"].

Definition document_types : list string :=
  ["application/pdf"; "application/msword";
   "application/vnd.openxmlformats-officedocument.wordprocessingml.document"].

Definition all_types : list string := image_types ++ document_types.

(** [fileFilter]: [true] when the callback is called with [(null, true)]. *)
Definition fileFilter (fieldname mimetype : string) : bool :=
  if includes "photo" fieldname || includes "image" fieldname
  then bool_decide (mimetype ∈ image_types)
  else if includes "document" fieldname || includes "license" fieldname
          || includes "certificate" fieldname
       then bool_decide (mimetype ∈ all_types)
       else bool_decide (mimetype ∈ all_types).

(** The field names of the four [upload.fields] / [upload.array] /
    [upload.single] configurations. *)
Definition configured_fields : list string :=
  ["profilePhoto"; "licensePhoto"; "nationalId"; "proofOfAddress";
   "businessLicense"; "taxCertificate";
   "pickupReceipt"; "deliveryReceipt"; "invoice"; "insurance"; "customs";
   "photos"; "file"].

Definition is_alnum (c : ascii) : bool :=
  let n := nat_of_ascii c in
  ((48 <=? n) && (n <=? 57) || (65 <=? n) && (n <=? 90)
   || (97 <=? n) && (n <=? 122))%nat.

(** [baseName.replace(/[^a-zA-Z0-9]/g, '_')] *)
Fixpoint cleanBaseName (s : string) : string :=
  match s with
  | EmptyString => EmptyString
  | String c rest => String (if is_alnum c then c else "_"%char) (cleanBaseName rest)
  end.

End Upload.

(** ** Sample data *)

Module Samples.

Definition day : Z := 24 * 60 * 60 * 1000.

Definition env_at (t : Date) : Env :=
  mkEnv t "SHK2J8X1A0B3" "TRKK2J8X1A0B3C4D5" "PAYK2J8X1A0B3C" "REFK2J8X1A0" "PARK2J8X1A0" "9f2c".

Definition a_client : Principal := mkPrincipal client 7.
Definition an_admin : Principal := mkPrincipal admin 3.
Definition a_driver : Principal := mkPrincipal driver 11.

Definition depot : ShipmentModel.Address :=
  ShipmentModel.mkAddress "12 Dock Road" "Mombasa" "Coast" "80100".
Definition shop : ShipmentModel.Address :=
  ShipmentModel.mkAddress "4 Market Street" "Nairobi" "Nairobi" "00100".

(** Pickup tomorrow, delivery three days later, one item of quantity 2
    weighing 5 kg. *)
Definition a_request : ShipmentRoutes.CreateBody :=
  ShipmentRoutes.mkCreateBody "Two crates of spare parts"
    [ShipmentModel.mkItem "crate" 2 5 None ShipmentModel.Machinery false]
    depot shop ShipmentModel.standard None (1000 + day) (1000 + 4 * day) None.

(** The shipment of [a_request], stored with identifiers of its own (the
    creation handler of the source supplies none and stores nothing). *)
Definition shipments1 : gmap ObjectId ShipmentModel.Shipment :=
  (ShipmentRoutes.create_shipment_with (Some "SHK2J8X1A0B3")
     (Some "TRKK2J8X1A0B3C4D5") (env_at 1000) a_client a_request ∅).2.

Definition drivers1 : gmap ObjectId DriverModel.Driver :=
  {[ 11%positive := DriverModel.mkDriver "Amina" "Otieno" DriverModel.approved
                      DriverModel.kyc_approved;
     12%positive := DriverModel.mkDriver "Brian" "Mwangi" DriverModel.pending
                      DriverModel.kyc_approved ]}.

Definition shipments2 : gmap ObjectId ShipmentModel.Shipment :=
  (ShipmentRoutes.assign_driver (env_at 2000) an_admin 1 11 drivers1 shipments1).2.

(** The assigned driver carries the shipment through to delivery. *)
Definition driver_reports (t : Date) (st : ShipmentModel.Status)
    (store : gmap ObjectId ShipmentModel.Shipment) : gmap ObjectId ShipmentModel.Shipment :=
  (ShipmentRoutes.update_status (env_at t) a_driver 1
     (ShipmentRoutes.mkStatusBody st None None) store).2.

Definition shipments_delivered : gmap ObjectId ShipmentModel.Shipment :=
  driver_reports 6000 ShipmentModel.delivered
    (driver_reports 5000 ShipmentModel.in_transit
       (driver_reports 4000 ShipmentModel.processing
          (driver_reports 3000 ShipmentModel.picked shipments2))).

Definition clients1 : gmap ObjectId ClientModel.Client :=
  {[ 7%positive := ClientModel.mkClient "Pwani Traders" (Some ClientModel.net_15) ]}.

(** A bill of 100 for shipment 1. *)
Definition a_bill : PaymentRoutes.CreateBody :=
  PaymentRoutes.mkCreateBody 1 (PaymentRoutes.mkAmountBody 100 None None 100)
    (1000 + 30 * day) None.

(** The payment of [a_bill], stored with an identifier and a payment
    method of its own (the creation handler of the source supplies neither
    and stores nothing). *)
Definition payments1 : gmap ObjectId PaymentModel.Payment :=
  (PaymentRoutes.create_payment_with (Some "PAYK2J8X1A0B3C")
     (Some PaymentModel.pm_bank_transfer) (env_at 8000) a_bill
     shipments_delivered clients1 ∅).2.

(** A stand-in for the conversion of a number to text. *)
Definition show_whole (x : Number) : string :=
  if (x =? 60)%float then "60" else if (x =? 40)%float then "40" else "some".

Definition pay (t : Date) (a : Number) (store : gmap ObjectId PaymentModel.Payment) :=
  PaymentRoutes.record_partial show_whole (env_at t) an_admin 1
    (PaymentRoutes.mkPartialBody a PaymentModel.bank_transfer None) store.

(** The payment marked [completed] by an administrator. *)
Definition payments_paid : gmap ObjectId PaymentModel.Payment :=
  (PaymentRoutes.update_status (env_at 9000) an_admin 1
     (PaymentRoutes.mkStatusBody PaymentModel.completed None None) payments1).2.

Definition a_refund (a : Number) : PaymentRoutes.RefundBody :=
  PaymentRoutes.mkRefundBody a PaymentModel.client_request None None.

(** A library stand-in: every address is accepted as it is, and a stored
    hash matches exactly the password equal to it. *)
Definition lib0 : AuthRoutes.Library :=
  AuthRoutes.mkLibrary (λ _, true) (λ e, e) String.eqb.

Definition an_operator : AdminModel.Admin :=
  AdminModel.mkAdmin "ops@logistics.example" "correct horse" AdminModel.active None
    (AdminModel.mkAttempts 0 None None) [] 0.

Definition admins1 : gmap ObjectId AdminModel.Admin := {[ 3%positive := an_operator ]}.


Definition the_password : AuthRoutes.LoginBody :=
  AuthRoutes.mkLoginBody "ops@logistics.example" "correct horse" "curl".



End Samples.

Module MoreSamples.
Import Samples.

(** The bill of [payments1], paid in two instalments. *)
Definition payments_settled : gmap ObjectId PaymentModel.Payment :=
  (pay 12000 40 (pay 11000 60 payments1).2).2.

(** The completed payment after a refund of 30. *)
Definition payments_refunded : gmap ObjectId PaymentModel.Payment :=
  (PaymentRoutes.refund (env_at 10000) an_admin 1 (a_refund 30) payments_paid).2.

Definition mark_completed : PaymentRoutes.StatusBody :=
  PaymentRoutes.mkStatusBody PaymentModel.completed None None.

(** A bill of 1.1 for shipment 1, stored like [payments1]. *)
Definition payments_odd : gmap ObjectId PaymentModel.Payment :=
  (PaymentRoutes.create_payment_with (Some "PAYK2J8X1A0B3E")
     (Some PaymentModel.pm_cash) (env_at 8000)
     (PaymentRoutes.mkCreateBody 1 (PaymentRoutes.mkAmountBody 1.1 None None 1.1)
        (1000 + 30 * day) None)
     shipments_delivered clients1 ∅).2.






End MoreSamples.

(** * Properties *)

(** ** Numbers *)

Section NumberFacts.

Lemma num_sub_zero (x : Number) : (x - 0)%float = x.
Proof.
  apply Prim2SF_inj. rewrite sub_spec.
  change (Prim2SF 0) with (S754_zero false).
  by destruct (Prim2SF x) as [[]|[]| |[] m e].
Qed.

(** A number of at least 0.01 is positive, and adding it to 0 gives it
    back. *)
Lemma num_add_zero_l (a : Number) :
  num_ge a 0.01 = true → (0 + a)%float = a ∧ num_gt a 0 = true.
Proof.
  unfold num_ge, num_gt.
  rewrite FloatAxioms.leb_spec, FloatAxioms.ltb_spec. intros H.
  change (Prim2SF 0.01) with (S754_finite false 5764607523034235 (-59)) in H.
  split.
  - apply Prim2SF_inj. rewrite add_spec.
    change (Prim2SF 0) with (S754_zero false).
    by destruct (Prim2SF a) as [[]|[]| |[] m e].
  - change (Prim2SF 0) with (S754_zero false).
    by destruct (Prim2SF a) as [[]|[]| |[] m e].
Qed.

Lemma isFloat_min_ge lo x : isFloat_min lo x = true → num_ge x lo = true.
Proof. unfold isFloat_min. by intros [_ ?]%andb_prop. Qed.

End NumberFacts.

(** ** Shipments *)

Section ShipmentFacts.
Import ShipmentModel ShipmentRoutes ShipmentHistory.

Lemma pre_save_existing env s : pre_save env false s = s.
Proof. reflexivity. Qed.

Lemma updateStatus_status env st loc n by_ u s :
  status (updateStatus env st loc n by_ u s) = st.
Proof. by destruct st. Qed.

Lemma updateStatus_timeline env st loc n by_ u s :
  timeline (updateStatus env st loc n by_ u s)
  = timeline s ++ [mkEntry st (now env) loc n by_ u].
Proof. by destruct st. Qed.

Lemma updateStatus_driver env st loc n by_ u s :
  driver_ref (updateStatus env st loc n by_ u s) = driver_ref s.
Proof. by destruct st. Qed.

Lemma updateStatus_consistent env st loc n by_ u s :
  consistent (updateStatus env st loc n by_ u s).
Proof.
  split.
  - rewrite updateStatus_timeline. by destruct (timeline s).
  - by rewrite updateStatus_timeline, last_snoc, updateStatus_status.
Qed.

Lemma pre_save_new_consistent env s :
  status s = pending → timeline s = [] → consistent (pre_save env true s).
Proof.
  intros Hst Htl. unfold consistent, pre_save. simpl. rewrite Htl, Hst. done.
Qed.

Lemma find_for_lookup who id store s :
  find_for who id store = Some s → store !! id = Some s.
Proof.
  unfold find_for. destruct (store !! id) as [s0|]; [|done].
  destruct (userType who); [case_bool_decide|..]; congruence.
Qed.

(** Every handler either leaves the collection alone or writes exactly one
    document. *)
Lemma step_shape store store' :
  step store store' →
  store' = store ∨ ∃ id s, store' = <[id := s]> store ∧ written store id s.
Proof.
  destruct 1 as [sid trk env who b store|env who id b store
                |env who id did drivers store|env who id files store
                |castNumber env who id b urls store].
  - unfold create_shipment_with, create.
    destruct (valid_create b); cbn [negb]; [|by left].
    destruct (_ <? _); [by left|]. destruct (_ <=? _); [by left|].
    destruct (if bool_decide _ then _ else _); [|by left].
    destruct (validate _); [|by left].
    right. eexists _, _. split; [reflexivity|]. left.
    split; [by apply pre_save_new_consistent|].
    split; [apply (not_elem_of_dom (D:=gset ObjectId)), is_fresh|].
    cbn. repeat split; eauto.
  - unfold update_status, save. repeat case_match; cbn [snd]; auto.
    right. eexists _, _. split; [done|]. right; left.
    split; [apply updateStatus_consistent|].
    rewrite pre_save_existing, updateStatus_timeline.
    eauto using find_for_lookup.
  - unfold assign_driver, save. repeat case_match; cbn [snd]; auto.
    right. eexists _, _. split; [done|]. right; left.
    split; [apply updateStatus_consistent|].
    rewrite pre_save_existing, updateStatus_timeline. eauto.
  - unfold upload_documents, save.
    destruct (find_for who id store) as [s0|] eqn:Hf; [|by left].
    destruct files as [|f files]; [by left|].
    right. eexists _, _. split; [reflexivity|]. right; right.
    exists s0. split; [by eapply find_for_lookup|done].
  - unfold upload_photos, save.
    destruct (valid_photo_body b); cbn [negb]; [|by left].
    destruct (store !! id) as [s0|] eqn:Hs0; [|by left].
    case_bool_decide; cbn [negb]; [|by left].
    destruct urls as [|u urls]; [by left|].
    destruct (photo_location_of castNumber b); [|by left].
    right. eexists _, _. split; [reflexivity|]. right; right.
    exists s0. done.
Qed.

Lemma reachable_well_tracked store :
  reachable store → map_Forall (λ _, well_tracked) store.
Proof.
  unfold reachable. revert store.
  apply rtc_ind_r; [apply map_Forall_empty|].
  intros store1 store2 _ Hstep IH.
  destruct (step_shape _ _ Hstep) as [->|(id & s & -> & Hw)]; [done|].
  apply map_Forall_insert_2; [|done].
  destruct Hw as [(Hc & _ & _ & _ & e & Htl & He)
                 |[(Hc & s0 & e & Hs0 & Htl)|(s0 & Hs0 & Htl & Hst)]].
  - split; [done|]. rewrite Htl. by simpl; rewrite He.
  - split; [done|]. rewrite Htl.
    destruct (IH _ _ Hs0) as [[Hne _] Hhd].
    destruct (timeline s0); [done|]. done.
  - destruct (IH _ _ Hs0) as [[Hne Hlast] Hhd].
    unfold well_tracked, consistent. by rewrite Htl, Hst.
Qed.

(** C1. In every collection the handlers can produce (creation, status
    transition, driver assignment, in any order and number), each shipment
    has a non-empty timeline, its [status] field is the status of the last
    timeline entry, and the first entry is the [pending] one written at
    creation. *)
Theorem status_is_last_timeline_entry store id s :
  reachable store → store !! id = Some s →
  timeline s ≠ []
  ∧ e_status <$> last (timeline s) = Some (status s)
  ∧ e_status <$> head (timeline s) = Some pending.
Proof.
  intros Hr Hs. destruct (reachable_well_tracked _ Hr _ _ Hs) as [[? ?] ?].
  done.
Qed.

End ShipmentFacts.

Section ShipmentClaims.
Import ShipmentModel ShipmentRoutes ShipmentHistory Samples.

Lemma status_is_last_timeline_entry_witness :
  ∃ s, shipments2 !! 1%positive = Some s
       ∧ timeline s ≠ []
       ∧ e_status <$> last (timeline s) = Some (status s)
       ∧ e_status <$> head (timeline s) = Some pending.
Proof.
  eexists. split; [vm_compute; reflexivity|].
  apply (status_is_last_timeline_entry shipments2 1).
  - unfold reachable.
    apply (rtc_l _ _ shipments1); [apply step_create|].
    apply (rtc_l _ _ shipments2); [apply step_assign|].
    apply rtc_refl.
  - vm_compute; reflexivity.
Defined.

(** The handler's table is the table of section 4.1. *)
Lemma validTransitions_adjacency from to :
  to ∈ validTransitions from ↔ (from, to) ∈ ShipmentSpec.adjacency_4_1.
Proof.
  rewrite <- (bool_decide_spec (to ∈ _)), <- (bool_decide_spec ((from, to) ∈ _)).
  destruct from, to; vm_compute; tauto.
Qed.

(** C2 (as stated) fails: a request for [pending], which is in no row of
    the table, is answered by the validation error, before the shipment is
    even read, and the answer names no status. *)
Lemma pending_request_gets_validation_error :
  ∃ s, find_for an_admin 1 shipments2 = Some s
       ∧ ((status s, pending) ∉ ShipmentSpec.adjacency_4_1)
       ∧ (update_status (env_at 3000) an_admin 1
            (mkStatusBody pending None None) shipments2).1
         = fail 400 "Validation errors"
       ∧ "Validation errors"
         ≠ ("Cannot transition from " +:+ status_name (status s)
            +:+ " to " +:+ status_name pending).
Proof.
  eexists. split; [vm_compute; reflexivity|].
  split; [apply (bool_decide_unpack _); vm_compute; exact I|].
  split; [vm_compute; reflexivity|].
  vm_compute. discriminate.
Qed.

(** C2 (amended). For a shipment the caller's query finds, a requested
    status outside the table of section 4.1 is refused with HTTP 400 and
    the collection (hence the shipment's timeline and status) is left as it
    was.  When the request passes validation the message names the current
    and the requested status; a request that fails validation, as every
    request for [pending] does, gets the validation error instead.
    Nothing is permitted from [delivered], [returned] or [cancelled]. *)
Theorem transition_outside_table_refused env who id b store s :
  find_for who id store = Some s →
  (status s, sb_status b) ∉ ShipmentSpec.adjacency_4_1 →
  let r := update_status env who id b store in
  r.2 = store
  ∧ code r.1 = 400%nat ∧ success r.1 = false
  ∧ (valid_status_body b = true →
     message r.1 = "Cannot transition from " +:+ status_name (status s)
                   +:+ " to " +:+ status_name (sb_status b))
  ∧ (valid_status_body b = false → message r.1 = "Validation errors")
  ∧ (sb_status b = pending → valid_status_body b = false)
  ∧ (∀ to, ((delivered, to) ∉ ShipmentSpec.adjacency_4_1)
           ∧ ((returned, to) ∉ ShipmentSpec.adjacency_4_1)
           ∧ ((cancelled, to) ∉ ShipmentSpec.adjacency_4_1)).
Proof.
  intros Hfind Hout r. subst r. unfold update_status.
  rewrite <- validTransitions_adjacency in Hout.
  destruct (valid_status_body b) eqn:Hv; cbn [negb].
  - rewrite Hfind. rewrite (bool_decide_eq_false_2 _ Hout). cbn.
    repeat split; try done.
    + intros Hp. unfold valid_status_body in Hv. rewrite Hp in Hv. done.
    + rewrite <- validTransitions_adjacency. set_solver.
    + rewrite <- validTransitions_adjacency. set_solver.
    + rewrite <- validTransitions_adjacency. set_solver.
  - cbn. repeat split; try done.
    all: rewrite <- validTransitions_adjacency; set_solver.
Qed.

Lemma transition_outside_table_refused_witness :
  ∃ s, find_for an_admin 1 shipments_delivered = Some s
       ∧ status s = delivered
       ∧ let r := update_status (env_at 7000) an_admin 1
                    (mkStatusBody in_transit None None) shipments_delivered in
         r.2 = shipments_delivered
         ∧ message r.1 = "Cannot transition from delivered to in_transit".
Proof.
  eexists. split; [vm_compute; reflexivity|]. split; [reflexivity|].
  destruct (transition_outside_table_refused (env_at 7000) an_admin 1
              (mkStatusBody in_transit None None) shipments_delivered _
              ltac:(vm_compute; reflexivity)
              ltac:(apply (bool_decide_unpack _); vm_compute; exact I))
    as (Hstore & _ & _ & Hmsg & _).
  split; [exact Hstore|]. exact (Hmsg eq_refl).
Defined.

(** C6. Driver assignment answers "Driver not found" (404) when the driver
    is absent, "Driver is not approved or KYC not completed" (400) when the
    driver's status or KYC status is not [approved], "Shipment not found"
    (404) when the shipment is absent, "Can only assign drivers to pending
    shipments" (400) when the shipment is not [pending]; the checks run in
    this order.  Every failure leaves the collection as it was; success
    writes one shipment with the driver set, status [assigned] and exactly
    one more timeline entry. *)
Theorem assign_driver_all_or_nothing env who id driverId drivers store :
  let r := assign_driver env who id driverId drivers store in
  let eligible d := DriverModel.status d = DriverModel.approved
                    ∧ DriverModel.kycStatus d = DriverModel.kyc_approved in
  (drivers !! driverId = None → r = (fail 404 "Driver not found", store))
  ∧ (∀ d, drivers !! driverId = Some d → ¬ eligible d →
          r = (fail 400 "Driver is not approved or KYC not completed", store))
  ∧ (∀ d, drivers !! driverId = Some d → eligible d → store !! id = None →
          r = (fail 404 "Shipment not found", store))
  ∧ (∀ d s, drivers !! driverId = Some d → eligible d →
            store !! id = Some s → status s ≠ pending →
            r = (fail 400 "Can only assign drivers to pending shipments", store))
  ∧ (∀ d s, drivers !! driverId = Some d → eligible d →
            store !! id = Some s → status s = pending →
            ∃ s' e, r = (ok 200 "Driver assigned successfully" s', <[id := s']> store)
                    ∧ driver_ref s' = Some driverId
                    ∧ status s' = assigned
                    ∧ timeline s' = timeline s ++ [e]
                    ∧ e_status e = assigned)
  ∧ (success r.1 = false → r.2 = store)
  ∧ (success r.1 = true →
       ∃ d s, drivers !! driverId = Some d ∧ eligible d
              ∧ store !! id = Some s ∧ status s = pending).
Proof.
  intros r eligible. subst r eligible. unfold assign_driver.
  destruct (drivers !! driverId) as [d|] eqn:Hd; cbn [fst snd];
    [|by repeat split; intros; simplify_eq/=].
  destruct (decide (DriverModel.status d = DriverModel.approved)) as [Hs|Hs];
    [|rewrite (bool_decide_eq_false_2 _ Hs); cbn;
      repeat split; intros; simplify_eq/=; tauto].
  destruct (decide (DriverModel.kycStatus d = DriverModel.kyc_approved)) as [Hk|Hk];
    [|rewrite (bool_decide_eq_false_2 _ Hk), orb_true_r; cbn;
      repeat split; intros; simplify_eq/=; tauto].
  rewrite (bool_decide_eq_true_2 _ Hs), (bool_decide_eq_true_2 _ Hk). cbn [negb orb].
  destruct (store !! id) as [s|] eqn:Hsh; cbn [fst snd];
    [|repeat split; intros; simplify_eq/=; try done; tauto].
  destruct (decide (status s = pending)) as [Hp|Hp].
  - rewrite (bool_decide_eq_true_2 _ Hp). cbn [negb fst snd success ok].
    repeat split; intros; simplify_eq/=; try done; try tauto.
    + eexists _, _. unfold save. rewrite pre_save_existing.
      split; [reflexivity|].
      by rewrite updateStatus_driver, updateStatus_status, updateStatus_timeline.
    + eauto 10.
  - rewrite (bool_decide_eq_false_2 _ Hp). cbn [negb fst snd].
    repeat split; intros; simplify_eq/=; try done; tauto.
Qed.

(** The scenario of the specification: a driver whose status is [pending]
    cannot be assigned; the shipment stays [pending] with no driver. *)
Lemma assign_driver_all_or_nothing_witness :
  let r := assign_driver (env_at 2000) an_admin 1 12 drivers1 shipments1 in
  r = (fail 400 "Driver is not approved or KYC not completed", shipments1)
  ∧ (status <$> r.2 !! 1%positive) = Some pending
  ∧ (driver_ref <$> r.2 !! 1%positive) = Some None.
Proof.
  pose proof (assign_driver_all_or_nothing (env_at 2000) an_admin 1 12
                drivers1 shipments1) as (_ & Hineligible & _).
  cbv zeta. erewrite Hineligible.
  - repeat split; vm_compute; reflexivity.
  - vm_compute; reflexivity.
  - intros [Hst _]. vm_compute in Hst. discriminate Hst.
Defined.

(** An item that breaks a field constraint fails the per-item check. *)
Lemma valid_item_false it :
  trim (item_name it) = "" ∨ quantity it < 1 ∨ num_ge (weight it) 0.1 = false →
  valid_item it = false.
Proof.
  unfold valid_item, isFloat_min. intros [Hn|[Hq|Hw]].
  - by rewrite Hn.
  - apply Z.leb_gt in Hq. rewrite Hq. by rewrite andb_false_r.
  - rewrite Hw. by rewrite !andb_false_r.
Qed.

(** C7. The creation handler stores nothing.  A request in which a manifest
    item has an empty name, a quantity below 1 or a weight below 0.1, whose
    pickup date is before now, or whose delivery date is not after the
    pickup date, is refused with HTTP 400, as the claim says.  But every
    other request is refused as well: one that passes these checks and
    names its client is answered 500 "Server error during shipment
    creation", because the handler gives [Shipment.create] neither of the
    two required identifiers, and validation runs before the hook that
    would generate them.  No request is answered with a shipment. *)
Theorem create_shipment_stores_nothing env who b store :
  let r := create_shipment env who b store in
  success r.1 = false ∧ data r.1 = None ∧ r.2 = store
  ∧ (Exists (λ it, trim (item_name it) = "" ∨ quantity it < 1
                   ∨ num_ge (weight it) 0.1 = false) (cb_items b) →
     r = (fail 400 "Validation errors", store))
  ∧ (valid_create b = true → cb_requestedPickupDate b < now env →
     r = (fail 400 "Pickup date cannot be in the past", store))
  ∧ (valid_create b = true → now env ≤ cb_requestedPickupDate b →
     cb_requestedDeliveryDate b ≤ cb_requestedPickupDate b →
     r = (fail 400 "Delivery date must be after pickup date", store))
  ∧ (valid_create b = true → now env ≤ cb_requestedPickupDate b →
     cb_requestedPickupDate b < cb_requestedDeliveryDate b →
     (userType who = admin → is_Some (cb_clientId b)) →
     r = (fail 500 "Server error during shipment creation", store)).
Proof.
  intros r. subst r. unfold create_shipment, create_shipment_with.
  destruct (valid_create b) eqn:Hv; cbn [negb].
  2:{ repeat split; intros; simplify_eq/=; done. }
  assert (Hitems : ¬ Exists (λ it, trim (item_name it) = "" ∨ quantity it < 1
                                   ∨ num_ge (weight it) 0.1 = false) (cb_items b)).
  { intros Hbad. unfold valid_create in Hv.
    apply Exists_exists in Hbad as (it & Hin & Hit).
    apply valid_item_false in Hit.
    repeat (apply andb_prop in Hv as [Hv ?]).
    assert (Hall : forallb valid_item (cb_items b) = true) by done.
    rewrite forallb_forall in Hall.
    apply list_elem_of_In in Hin. rewrite (Hall _ Hin) in Hit. done. }
  destruct (cb_requestedPickupDate b <? now env) eqn:Hp.
  { apply Z.ltb_lt in Hp. repeat split; intros; simplify_eq/=; try done; lia. }
  apply Z.ltb_ge in Hp.
  destruct (cb_requestedDeliveryDate b <=? cb_requestedPickupDate b) eqn:Hd.
  { apply Z.leb_le in Hd. repeat split; intros; simplify_eq/=; try done; lia. }
  apply Z.leb_gt in Hd.
  case_bool_decide as Ha.
  - destruct (cb_clientId b) as [cid|] eqn:Hc.
    + unfold create, validate. cbn [shipmentId truthy_text andb fst snd].
      repeat split; intros; try done; lia.
    + repeat split; intros; try done; try lia.
      exfalso. by apply (is_Some_None (A:=ObjectId)); auto.
  - unfold create, validate. cbn [shipmentId truthy_text andb fst snd].
    repeat split; intros; try done; lia.
Qed.

(** The scenario of the specification: pickup tomorrow, delivery three
    days later, one item of quantity 2 and weight 5.  The claim has it
    stored with [totalWeight] 10, status [pending] and a timeline of length
    1; the handler answers 500 and stores nothing. *)
Lemma create_shipment_stores_nothing_witness :
  create_shipment (env_at 1000) a_client a_request ∅
  = (fail 500 "Server error during shipment creation", ∅).
Proof.
  destruct (create_shipment_stores_nothing (env_at 1000) a_client a_request ∅)
    as (_ & _ & _ & _ & _ & _ & H).
  apply H; [vm_compute; reflexivity|vm_compute; discriminate|reflexivity|].
  intros Hadm. vm_compute in Hadm. discriminate.
Defined.

End ShipmentClaims.

(** ** Payments *)

Section PaymentFacts.
Import ClientModel PaymentModel PaymentRoutes PaymentHistory.

Lemma payment_pre_save_existing env p : pre_save env false false p = p.
Proof. reflexivity. Qed.

Lemma payment_pre_save_fields env isNew modified p :
  let p' := pre_save env isNew modified p in
  refunds p' = refunds p
  ∧ shipment_ref p' = shipment_ref p
  ∧ status p' = status p
  ∧ partialPayments p' = partialPayments p
  ∧ terms p' = terms p
  ∧ paidDate p' = paidDate p.
Proof. unfold pre_save. by repeat case_match. Qed.

Lemma updateStatus_fields env st n by_ u amt p :
  let p' := updateStatus env st n by_ u amt p in
  status p' = st
  ∧ timeline p' = timeline p ++ [mkEntry st (now env) n amt by_ u]
  ∧ shipment_ref p' = shipment_ref p
  ∧ amount p' = amount p
  ∧ refunds p' = refunds p
  ∧ partialPayments p' = partialPayments p
  ∧ paidDate p' = (if bool_decide (st = completed) then Some (now env) else paidDate p).
Proof. unfold updateStatus. by case_bool_decide. Qed.

Lemma totalRefunded_snoc_pending p r l :
  refunds p = l ++ [r] → r_status r ≠ r_completed →
  sum_amounts (map r_amount (filter (λ r, r_status r = r_completed) (refunds p)))
  = sum_amounts (map r_amount (filter (λ r, r_status r = r_completed) l)).
Proof.
  intros -> Hr. rewrite filter_app, filter_cons_False, filter_nil by done.
  by rewrite app_nil_r.
Qed.

Lemma addRefund_fields env rd p :
  let p' := addRefund env rd p in
  refunds p' = refunds p ++
               [mkRefund (gen_refundId env) (rd_amount rd) (rd_reason rd)
                  (rd_reasonDescription rd) (now env) (rd_refundMethod rd)
                  r_pending (rd_processedBy rd)]
  ∧ shipment_ref p' = shipment_ref p
  ∧ amount p' = amount p
  ∧ timeline p' = timeline p
  ∧ partialPayments p' = partialPayments p.
Proof. unfold addRefund. by repeat case_match. Qed.

Lemma addRefund_totalRefunded env rd p :
  totalRefunded (addRefund env rd p) = totalRefunded p.
Proof.
  unfold totalRefunded.
  destruct (addRefund_fields env rd p) as (Hr & _).
  by apply (totalRefunded_snoc_pending _ _ _ Hr).
Qed.

Lemma refunds_pending_totalRefunded p :
  refunds_pending p → totalRefunded p = 0%float.
Proof.
  unfold refunds_pending, totalRefunded. induction 1 as [|r l Hr _ IH]; [done|].
  rewrite filter_cons_False; [done|]. by rewrite Hr.
Qed.

Lemma exists_for_shipment_false sid store :
  exists_for_shipment sid store = false →
  ∀ j q, store !! j = Some q → shipment_ref q ≠ sid.
Proof.
  unfold exists_for_shipment. intros H%bool_decide_eq_false j q Hq Hsid.
  apply H. by exists j, q.
Qed.

Lemma exists_for_shipment_true sid store j q :
  store !! j = Some q → shipment_ref q = sid →
  exists_for_shipment sid store = true.
Proof.
  intros Hq Hsid. apply bool_decide_eq_true. by exists j, q.
Qed.

(** Every handler either leaves the collection alone, stores a new
    payment, or replaces one payment by an updated one. *)
Lemma payment_step_shape store store' :
  step store store' →
  store' = store
  ∨ ∃ id p, store' = <[id := p]> store
            ∧ (created store id p
               ∨ ∃ p0, store !! id = Some p0 ∧ updated p0 p).
Proof.
  destruct 1 as [pid method env b shipments clients store|env who id b store
                |env who id b store|show env who id b store].
  - unfold create_payment_with, create.
    destruct (valid_create b); cbn [negb]; [|by left].
    destruct (shipments !! cb_shipmentId b) as [sh|]; [|by left].
    destruct (exists_for_shipment _ _) eqn:Hex; [by left|].
    destruct (clients !! _) as [cl|]; [|by left].
    destruct (validate _); [|by left].
    right. eexists _, _. split; [reflexivity|]. left.
    split; [apply (not_elem_of_dom (D:=gset ObjectId)), is_fresh|].
    match goal with
    | |- context [pre_save ?e ?n ?m ?p] =>
        destruct (payment_pre_save_fields e n m p) as (-> & -> & _)
    end.
    split; [reflexivity|]. by apply exists_for_shipment_false.
  - unfold update_status, save.
    repeat case_match; cbn [snd]; auto.
    all: right; eexists _, _; split; [reflexivity|]; right.
    all: eexists; split; [done|]; rewrite payment_pre_save_existing; unfold updated.
    all: cbn [set_transactionId shipment_ref amount refunds].
    all: match goal with
         | |- context [updateStatus ?e ?st ?n ?by_ ?u ?a ?p] =>
             destruct (updateStatus_fields e st n by_ u a p)
               as (_ & _ & -> & -> & -> & _)
         end; auto.
  - unfold refund, save.
    repeat case_match; cbn [snd]; auto.
    right; eexists _, _; split; [reflexivity|]; right.
    eexists; split; [done|]; rewrite payment_pre_save_existing; unfold updated.
    match goal with
    | |- context [addRefund ?e ?rd ?p] =>
        destruct (addRefund_fields e rd p) as (-> & -> & -> & _)
    end. eauto 10.
  - unfold record_partial, save.
    repeat case_match; cbn [snd]; auto.
    all: right; eexists _, _; split; [reflexivity|]; right.
    all: eexists; split; [done|]; rewrite payment_pre_save_existing; unfold updated.
    all: match goal with
         | |- context [updateStatus ?e ?st ?n ?by_ ?u ?a ?p] =>
             destruct (updateStatus_fields e st n by_ u a p)
               as (_ & _ & -> & -> & -> & _)
         end; auto.
Qed.

Lemma step_one_per_shipment store store' :
  step store store' → one_per_shipment store → one_per_shipment store'.
Proof.
  intros Hstep Hone.
  destruct (payment_step_shape _ _ Hstep)
    as [->|(id & p & -> & [(Hfresh & Hnil & Hnew)|(p0 & Hp0 & Hsh & _)])];
    [done|..]; intros i j a c; rewrite !lookup_insert;
    repeat case_decide; intros; simplify_eq; try done.
  - exfalso. eapply Hnew; eauto.
  - exfalso. eapply Hnew; eauto.
  - eauto.
  - eapply Hone; eauto. congruence.
  - eapply Hone; eauto. congruence.
  - eauto.
Qed.

Lemma step_refunds_pending store store' :
  step store store' →
  map_Forall (λ _, refunds_pending) store →
  map_Forall (λ _, refunds_pending) store'.
Proof.
  intros Hstep Hpend.
  destruct (payment_step_shape _ _ Hstep)
    as [->|(id & p & -> & [(_ & Hnil & _)|(p0 & Hp0 & _ & _ & Href)])];
    [done|..]; (apply map_Forall_insert_2; [|done]); unfold refunds_pending.
  - by rewrite Hnil.
  - specialize (Hpend _ _ Hp0). unfold refunds_pending in Hpend.
    destruct Href as [->|(r & -> & Hr)]; [done|].
    apply Forall_app; split; [done|]. by constructor.
Qed.

Lemma reachable_invariants store :
  reachable store →
  one_per_shipment store ∧ map_Forall (λ _, refunds_pending) store.
Proof.
  unfold reachable. revert store.
  apply rtc_ind_r.
  { split; [intros i j p q Hp; by rewrite lookup_empty in Hp|apply map_Forall_empty]. }
  intros store1 store2 _ Hstep [Hone Hpend].
  eauto using step_one_per_shipment, step_refunds_pending.
Qed.

Lemma sum_amounts_snoc l a : sum_amounts (l ++ [a]) = (sum_amounts l + a)%float.
Proof. unfold sum_amounts. by rewrite fold_left_app. Qed.

End PaymentFacts.

Section PaymentClaims.
Import ClientModel PaymentModel PaymentRoutes PaymentHistory PaymentViews Samples.

(** C3 (as stated) fails: a refund of 30 against a completed payment of
    100 is stored as [pending] and yet the same call moves the payment from
    [completed] to [partially_refunded]. *)
Lemma refund_call_changes_status :
  ∃ p p', payments_paid !! 1%positive = Some p
          ∧ status p = completed
          ∧ total (amount p) = 100%float
          ∧ p' = addRefund (env_at 10000)
                   (mkRefundData 30 client_request None original_method 3) p
          ∧ (r_status <$> last (refunds p')) = Some r_pending
          ∧ status p' = partially_refunded
          ∧ status p' ≠ status p
          ∧ (refund (env_at 10000) an_admin 1 (a_refund 30) payments_paid).2
            = <[1%positive := p']> payments_paid.
Proof.
  eexists _, _. split; [vm_compute; reflexivity|].
  split; [reflexivity|]. split; [reflexivity|]. split; [reflexivity|].
  split; [vm_compute; reflexivity|]. split; [vm_compute; reflexivity|].
  split; [vm_compute; discriminate|]. vm_compute. reflexivity.
Qed.

(** At the route: in a collection the handlers produced, every accepted
    refund request takes the payment out of [completed]. *)
Lemma accepted_refund_leaves_completed env who id b store :
  reachable store → success (refund env who id b store).1 = true →
  ∃ p p', store !! id = Some p ∧ status p = completed
          ∧ (refund env who id b store).2 !! id = Some p'
          ∧ (status p' = refunded ∨ status p' = partially_refunded).
Proof.
  intros Hreach. unfold refund, save.
  destruct (valid_refund_body b) eqn:Hv; cbn [negb]; [|done].
  destruct (store !! id) as [p|] eqn:Hp; [|done].
  case_bool_decide as Hc; cbn [negb]; [|done].
  destruct (num_gt _ _); [done|]. intros _.
  exists p. eexists. split; [done|]. split; [done|]. cbn [fst snd].
  rewrite lookup_insert_eq, payment_pre_save_existing. split; [done|].
  apply reachable_invariants in Hreach as [_ Hpend].
  pose proof (refunds_pending_totalRefunded p (Hpend _ _ Hp)) as Hzero.
  assert (Hpos : num_ge (rb_amount b) 0.01 = true).
  { unfold valid_refund_body in Hv. apply andb_prop in Hv as [Hv _].
    by apply isFloat_min_ge. }
  destruct (num_add_zero_l _ Hpos) as [Hadd Hgt].
  unfold addRefund. set (p1 := push_refund _ p).
  assert (Ht : totalRefunded p1 = totalRefunded p).
  { unfold totalRefunded.
    eapply (totalRefunded_snoc_pending p1 _ (refunds p)); [reflexivity|done]. }
  rewrite Ht, Hzero. cbn [rd_amount]. rewrite Hadd, Hgt.
  destruct (num_ge (rb_amount b) (total (amount p1))); [by left|by right].
Qed.

(** C3 (amended). [addRefund] appends one refund whose status is
    [pending], which therefore does not count in [totalRefunded]; but the
    same call recomputes the payment's status from [totalRefunded] plus the
    amount of the new refund: [refunded] when that reaches [amount.total],
    otherwise [partially_refunded] when it is positive, otherwise the
    status is left as it was. *)
Theorem addRefund_recomputes_status env rd p :
  let p' := addRefund env rd p in
  let reached := (totalRefunded p + rd_amount rd)%float in
  (∃ r, refunds p' = refunds p ++ [r]
        ∧ r_status r = r_pending ∧ r_amount r = rd_amount rd)
  ∧ totalRefunded p' = totalRefunded p
  ∧ (num_ge reached (total (amount p)) = true → status p' = refunded)
  ∧ (num_ge reached (total (amount p)) = false → num_gt reached 0 = true →
     status p' = partially_refunded)
  ∧ (num_ge reached (total (amount p)) = false → num_gt reached 0 = false →
     status p' = status p).
Proof.
  intros p' reached. subst p' reached.
  split; [destruct (addRefund_fields env rd p) as (-> & _); eauto|].
  split; [apply addRefund_totalRefunded|].
  unfold addRefund.
  set (p1 := push_refund _ p).
  assert (Ht : totalRefunded p1 = totalRefunded p).
  { unfold totalRefunded.
    eapply (totalRefunded_snoc_pending p1 _ (refunds p)); [reflexivity|done]. }
  rewrite Ht. change (total (amount p1)) with (total (amount p)).
  destruct (num_ge (totalRefunded p + rd_amount rd) (total (amount p))) eqn:Hge.
  { repeat split; intros; done. }
  destruct (num_gt (totalRefunded p + rd_amount rd) 0) eqn:Hgt;
    repeat split; intros; done.
Qed.

Lemma addRefund_recomputes_status_witness :
  let p := mkPayment (Some "PAYK2J8X1A0B3C") None 7 1 (mkAmount 100 0 0 100)
             (Some pm_bank_transfer) completed [] 5000 (Some 4000) net_30 [] [] in
  let p' := addRefund (env_at 10000)
              (mkRefundData 30 client_request None original_method 3) p in
  status p' = partially_refunded ∧ totalRefunded p' = totalRefunded p.
Proof.
  intros p p'.
  destruct (addRefund_recomputes_status (env_at 10000)
              (mkRefundData 30 client_request None original_method 3) p)
    as (_ & Htot & _ & Hpart & _).
  split; [|exact Htot].
  apply Hpart; vm_compute; reflexivity.
Defined.

(** C4. For a stored payment and a well-formed request, a partial payment
    above the remaining balance is refused with "Payment amount exceeds
    remaining balance" and nothing is stored.  Otherwise one
    partial-payment entry with status [completed] is appended, and the new
    remaining balance is the balance less the amount, as the handler
    computes it and as the reply reports it: when that is at most 0 the
    payment becomes [completed] and [paidDate] is stamped, otherwise it
    becomes [processing] and the appended timeline entry records the
    partial amount.  The [remainingBalance] of the stored payment is then 0
    in the first case and, in the second, [amount.total] less the sum of
    the completed partial payments, the new one included. *)
Theorem record_partial_contract show env who id b store p :
  valid_partial_body b = true → store !! id = Some p →
  let r := record_partial show env who id b store in
  let a := pb_amount b in
  let newRemainingBalance := (remainingBalance p - a)%float in
  (num_gt a (remainingBalance p) = true →
   r = (fail 400 "Payment amount exceeds remaining balance", store))
  ∧ (num_gt a (remainingBalance p) = false →
     ∃ p' x,
       r = (ok 200 "Partial payment recorded successfully"
               (p', newRemainingBalance), <[id := p']> store)
       ∧ partialPayments p' = partialPayments p ++ [x]
       ∧ pp_amount x = a ∧ pp_status x = p_completed
       ∧ (num_le newRemainingBalance 0 = true →
          status p' = completed ∧ paidDate p' = Some (now env)
          ∧ remainingBalance p' = 0%float)
       ∧ (num_le newRemainingBalance 0 = false →
          status p' = processing
          ∧ (∃ e, last (timeline p') = Some e
                  ∧ e_status e = processing ∧ e_amount e = Some a)
          ∧ remainingBalance p' = (total (amount p) - (totalPaid p + a))%float)).
Proof.
  intros Hv Hp r a left. subst r a left. unfold record_partial.
  rewrite Hv, Hp. cbn [negb].
  destruct (num_gt (pb_amount b) (remainingBalance p)) eqn:Hgt.
  { split; [done|]. intros; done. }
  split; [done|]. intros _.
  unfold save. rewrite payment_pre_save_existing.
  set (x := mkPartial _ _ _ _ _ _).
  destruct (num_le (remainingBalance p - pb_amount b) 0) eqn:Hle.
  - destruct (updateStatus_fields env completed
                (Some "Payment completed with partial payments") by_admin
                (Some (user_id who)) None (push_partial x p))
      as (Hst & Htl & _ & Ham & _ & Hpp & Hpd).
    eexists _, x. split; [reflexivity|]. split; [exact Hpp|].
    split; [done|]. split; [done|]. split; [|done].
    intros _. split; [exact Hst|]. split; [exact Hpd|].
    unfold remainingBalance. by rewrite Hst, bool_decide_eq_true_2.
  - destruct (updateStatus_fields env processing
                (Some ("Partial payment received: $" +:+ show (pb_amount b)))
                by_admin (Some (user_id who)) (Some (pb_amount b))
                (push_partial x p))
      as (Hst & Htl & _ & Ham & _ & Hpp & Hpd).
    eexists _, x. split; [reflexivity|]. split; [exact Hpp|].
    split; [done|]. split; [done|]. split; [done|].
    intros _. split; [exact Hst|].
    split; [rewrite Htl, last_snoc; eauto|].
    unfold remainingBalance, totalPaid. rewrite Hst, Ham, Hpp.
    cbn [push_partial partialPayments amount].
    rewrite bool_decide_eq_false_2 by done.
    rewrite filter_app, filter_cons_True, filter_nil by done.
    rewrite map_app. cbn [map]. by rewrite sum_amounts_snoc.
Qed.

(** The scenario of the specification: total 100; a partial payment of 60
    leaves the payment [processing] with balance 40, a further one of 40
    completes it, with balance 0 and [paidDate] set. *)
Lemma record_partial_contract_witness :
  ∃ p0 p1 p2,
    payments1 !! 1%positive = Some p0
    ∧ total (amount p0) = 100%float
    ∧ pay 11000 60 payments1
      = (ok 200 "Partial payment recorded successfully" (p1, 40%float),
         <[1%positive := p1]> payments1)
    ∧ status p1 = processing ∧ remainingBalance p1 = 40%float
    ∧ pay 12000 40 (<[1%positive := p1]> payments1)
      = (ok 200 "Partial payment recorded successfully" (p2, 0%float),
         <[1%positive := p2]> (<[1%positive := p1]> payments1))
    ∧ status p2 = completed ∧ remainingBalance p2 = 0%float
    ∧ paidDate p2 = Some 12000.
Proof.
  destruct (record_partial_contract show_whole (env_at 11000) an_admin 1
              (mkPartialBody 60 bank_transfer None) payments1 _
              ltac:(vm_compute; reflexivity) ltac:(vm_compute; reflexivity))
    as (_ & Hfirst).
  destruct (Hfirst ltac:(vm_compute; reflexivity))
    as (p1 & x1 & Hr1 & Hpp1 & _ & _ & _ & Hproc).
  destruct (Hproc ltac:(vm_compute; reflexivity)) as (Hst1 & _).
  assert (Hp1 : (pay 11000 60 payments1).2 !! 1%positive = Some p1).
  { unfold pay. rewrite Hr1. apply lookup_insert_eq. }
  assert (Hb1 : remainingBalance p1 = 40%float).
  { vm_compute in Hp1. injection Hp1 as <-. vm_compute. reflexivity. }
  destruct (record_partial_contract show_whole (env_at 12000) an_admin 1
              (mkPartialBody 40 bank_transfer None) (<[1%positive := p1]> payments1)
              p1 ltac:(vm_compute; reflexivity) ltac:(apply lookup_insert_eq))
    as (_ & Hsecond).
  cbv zeta in Hsecond. cbn [pb_amount] in Hsecond. rewrite Hb1 in Hsecond.
  destruct (Hsecond ltac:(vm_compute; reflexivity))
    as (p2 & x2 & Hr2 & _ & _ & _ & Hdone & _).
  destruct (Hdone ltac:(vm_compute; reflexivity)) as (Hst2 & Hpd2 & Hbal2).
  eexists _, p1, p2. split; [vm_compute; reflexivity|]. split; [reflexivity|].
  split; [exact Hr1|]. split; [exact Hst1|]. split; [exact Hb1|].
  split; [exact Hr2|]. done.
Defined.

(** Rounding.  The balance the handler goes by is the balance before less
    the amount, and the [remainingBalance] of the stored payment is the
    total less the sum of the amounts; in doubles the two can differ.  On
    a total of 1.1, partial payments of 0.8 and then 0.3 are both accepted;
    after the second the handler's balance is above 0, so the payment is
    left [processing], and the [remainingBalance] of the stored payment is
    0. *)
Lemma partial_balance_rounding :
  ∃ p1 p2 balance,
    pay 11000 0.8 MoreSamples.payments_odd
    = (ok 200 "Partial payment recorded successfully" (p1, (1.1 - 0.8)%float),
       <[1%positive := p1]> MoreSamples.payments_odd)
    ∧ pay 12000 0.3 (<[1%positive := p1]> MoreSamples.payments_odd)
      = (ok 200 "Partial payment recorded successfully" (p2, balance),
         <[1%positive := p2]> (<[1%positive := p1]> MoreSamples.payments_odd))
    ∧ num_gt balance 0 = true
    ∧ status p2 = processing
    ∧ remainingBalance p2 = 0%float.
Proof.
  eexists _, _, _. split; [vm_compute; reflexivity|].
  split; [vm_compute; reflexivity|].
  split; [vm_compute; reflexivity|]. split; vm_compute; reflexivity.
Qed.




(** C8. The creation handler stores nothing.  A request for a shipment
    that a stored payment already refers to is refused with "Payment
    already exists for this shipment", as the claim says, and the terms the
    handler computes are the explicit ones when given, otherwise the
    client's configured terms, otherwise [net_30].  But the payment they
    are computed for is never stored: a well-formed request for a shipment
    without a payment is answered 500 "Server error creating payment",
    because the handler gives [Payment.create] neither the required
    [paymentId], which only the hook after validation would generate, nor
    the required [paymentMethod.type]. *)
Theorem create_payment_stores_nothing env b shipments clients store :
  let r := create_payment env b shipments clients store in
  success r.1 = false ∧ data r.1 = None ∧ r.2 = store
  ∧ (∀ sh j q, valid_create b = true →
               shipments !! cb_shipmentId b = Some sh →
               store !! j = Some q → shipment_ref q = cb_shipmentId b →
               r = (fail 400 "Payment already exists for this shipment", store))
  ∧ (∀ sh, valid_create b = true →
           shipments !! cb_shipmentId b = Some sh →
           (∀ j q, store !! j = Some q → shipment_ref q ≠ cb_shipmentId b) →
           r = (fail 500 "Server error creating payment", store))
  ∧ (∀ cl t, choose_terms (Some t) cl = t)
  ∧ (∀ cl t, paymentTerms cl = Some t → choose_terms None cl = t)
  ∧ (∀ cl, paymentTerms cl = None → choose_terms None cl = net_30).
Proof.
  intros r. subst r.
  repeat match goal with |- _ ∧ _ => split end.
  6:{ done. }
  6:{ intros cl t Ht. unfold choose_terms. by rewrite Ht. }
  6:{ intros cl Ht. unfold choose_terms. by rewrite Ht. }
  4:{ intros sh j q Hv Hsh Hq Href. unfold create_payment, create_payment_with.
      by rewrite Hv, Hsh, (exists_for_shipment_true _ _ _ _ Hq Href). }
  4:{ intros sh Hv Hsh Hnone. unfold create_payment, create_payment_with.
      rewrite Hv, Hsh. cbn [negb].
      destruct (exists_for_shipment _ _) eqn:Hex.
      { apply bool_decide_eq_true in Hex as (j & q & Hq & Href).
        by destruct (Hnone j q Hq). }
      by destruct (clients !! _). }
  all: unfold create_payment, create_payment_with, create, validate;
    cbn [paymentId truthy_text andb]; by repeat case_match.
Qed.

(** The request of the sample bill: refused as a duplicate once a payment
    for the shipment is there, and answered 500, nothing stored, when none
    is. *)
Lemma create_payment_stores_nothing_witness :
  create_payment (env_at 13000) a_bill shipments_delivered clients1 payments1
  = (fail 400 "Payment already exists for this shipment", payments1)
  ∧ create_payment (env_at 8000) a_bill shipments_delivered clients1 ∅
    = (fail 500 "Server error creating payment", ∅).
Proof.
  destruct (create_payment_stores_nothing (env_at 13000) a_bill shipments_delivered
              clients1 payments1) as (_ & _ & _ & Hdup & _).
  destruct (create_payment_stores_nothing (env_at 8000) a_bill shipments_delivered
              clients1 ∅) as (_ & _ & _ & _ & Hnew & _).
  split.
  - eapply (Hdup _ 1%positive); vm_compute; reflexivity.
  - eapply Hnew; [vm_compute; reflexivity|vm_compute; reflexivity|].
    intros j q Hq. by rewrite lookup_empty in Hq.
Defined.

End PaymentClaims.

(** ** Administrator login *)

Section AdminFacts.
Import AdminModel AuthRoutes AdminHistory.



Lemma successful_attempt_fields env device a :
  let a' := handleLoginAttempt env true device a in
  count (loginAttempts a') = 0 ∧ lockedUntil (loginAttempts a') = None
  ∧ lastLogin a' = Some (now env).
Proof. done. Qed.


Lemma find_by_email_Some e store id a :
  find_by_email e store = Some (id, a) → store !! id = Some a ∧ email a = e.
Proof.
  unfold find_by_email. intros H.
  apply fmap_Some in H as ([i [j b]] & Hfind & Heq). simpl in Heq. simplify_eq.
  apply list_find_Some in Hfind as (Hl & He & _).
  split; [|done].
  apply elem_of_map_to_list. by eapply list_elem_of_lookup_2.
Qed.








End AdminFacts.

Section AdminClaims.
Import AdminModel AuthRoutes AdminHistory Samples.







End AdminClaims.

(** ** More on shipments *)

Section ShipmentFurther.
Import ShipmentModel ShipmentRoutes ShipmentHistory ShipmentViews.

Lemma same_consignment_refl s : same_consignment s s.
Proof. by repeat split. Qed.

Lemma same_consignment_trans s0 s1 s2 :
  same_consignment s0 s1 → same_consignment s1 s2 → same_consignment s0 s2.
Proof.
  unfold same_consignment. intros H1 H2.
  repeat match goal with H : _ ∧ _ |- _ => destruct H end.
  repeat split; congruence.
Qed.

Lemma updateStatus_advanced env st loc n by_ u s0 :
  st ∈ validTransitions (status s0) →
  advanced s0 (updateStatus env st loc n by_ u s0)
           (mkEntry st (now env) loc n by_ u).
Proof.
  intros Hst. unfold advanced.
  rewrite updateStatus_timeline, updateStatus_status, updateStatus_driver.
  cbn [e_status e_timestamp].
  split; [done|]. split; [done|]. split; [done|].
  unfold updateStatus. destruct st; cbn; repeat split; auto.
Qed.

Lemma assigned_advanced env loc n by_ u d s0 :
  status s0 = pending →
  advanced s0 (updateStatus env assigned loc n by_ u (set_driver (Some d) s0))
           (mkEntry assigned (now env) loc n by_ u).
Proof.
  intros Hp. unfold advanced.
  rewrite updateStatus_timeline, updateStatus_status, updateStatus_driver.
  cbn [e_status e_timestamp set_driver timeline status driver_ref].
  split; [done|]. split; [done|].
  split; [rewrite Hp; set_solver|].
  unfold updateStatus. cbn. repeat split; eauto.
Qed.

Lemma filed_refl s : filed s s.
Proof. split; [apply same_consignment_refl|]. by repeat split. Qed.

Lemma filed_trans s0 s1 s2 : filed s0 s1 → filed s1 s2 → filed s0 s2.
Proof.
  intros (Hc1 & Hd1 & Hs1 & Ht1 & Hp1 & Ha1 & Hdo1 & Hph1)
         (Hc2 & Hd2 & Hs2 & Ht2 & Hp2 & Ha2 & Hdo2 & Hph2).
  split; [by eapply same_consignment_trans|].
  repeat split; try congruence; by etrans.
Qed.

(** What one request does to the collection, in full. *)
Lemma step_detail store store' :
  step store store' →
  store' = store
  ∨ (∃ id s, store' = <[id := s]> store ∧ store !! id = None
             ∧ status s = pending ∧ driver_ref s = None
             ∧ actualPickupDate s = None ∧ actualDeliveryDate s = None
             ∧ requestedPickupDate s < requestedDeliveryDate s
             ∧ ∃ e, timeline s = [e] ∧ e_status e = pending)
  ∨ (∃ id s0 s e, store !! id = Some s0 ∧ store' = <[id := s]> store
                  ∧ advanced s0 s e)
  ∨ (∃ id s0 s, store !! id = Some s0 ∧ store' = <[id := s]> store
                ∧ filed s0 s).
Proof.
  destruct 1 as [sid trk env who b store|env who id b store
                |env who id did drivers store|env who id files store
                |castNumber env who id b urls store].
  - unfold create_shipment_with, create.
    destruct (valid_create b); cbn [negb]; [|by left].
    destruct (_ <? _); [by left|].
    destruct (_ <=? _) eqn:Hd; [by left|]. apply Z.leb_gt in Hd.
    destruct (if bool_decide _ then _ else _); [|by left].
    destruct (validate _); [|by left].
    right; left. cbn [snd].
    eexists _, _. split; [reflexivity|].
    split; [apply (not_elem_of_dom (D:=gset ObjectId)), is_fresh|].
    cbn. repeat split; eauto.
  - unfold update_status, save.
    destruct (valid_status_body b); cbn [negb]; [|by left].
    destruct (find_for who id store) as [s0|] eqn:Hf; [|by left].
    case_bool_decide as Hin; cbn [negb snd]; [|by left].
    right; right; left. rewrite pre_save_existing.
    eexists id, s0, _, _. split; [by eapply find_for_lookup|].
    split; [reflexivity|]. by apply updateStatus_advanced.
  - unfold assign_driver, save.
    destruct (drivers !! did); [|by left].
    destruct (_ || _); [by left|].
    destruct (store !! id) as [s0|] eqn:Hs0; [|by left].
    case_bool_decide as Hp; cbn [negb snd]; [|by left].
    right; right; left. rewrite pre_save_existing.
    eexists id, s0, _, _. split; [done|].
    split; [reflexivity|]. by apply assigned_advanced.
  - unfold upload_documents, save.
    destruct (find_for who id store) as [s0|] eqn:Hf; [|by left].
    destruct files as [|f files]; [by left|].
    right; right; right. rewrite pre_save_existing.
    eexists id, s0, _. split; [by eapply find_for_lookup|].
    split; [reflexivity|].
    split; [by repeat split|]. cbn.
    repeat split; try done. by apply prefix_app_r.
  - unfold upload_photos, save.
    destruct (valid_photo_body b); cbn [negb]; [|by left].
    destruct (store !! id) as [s0|] eqn:Hs0; [|by left].
    case_bool_decide; cbn [negb]; [|by left].
    destruct urls as [|u urls]; [by left|].
    destruct (photo_location_of castNumber b); [|by left].
    right; right; right. rewrite pre_save_existing.
    eexists id, s0, _. split; [done|]. split; [reflexivity|].
    split; [by repeat split|]. cbn.
    repeat split; try done. by apply prefix_app_r.
Qed.

Lemma follows_table_snoc l a b :
  last l = Some a → b ∈ validTransitions a →
  follows_table l → follows_table (l ++ [b]).
Proof.
  induction l as [|x l IH]; [done|].
  destruct l as [|y l].
  - simpl. intros [= ->] Hb _. done.
  - intros Hlast Hb [Hxy Hrest]. split; [done|].
    apply IH; [|done|done]. exact Hlast.
Qed.

(** X1. The timeline of every stored shipment is a walk through the
    transition table: it starts at [pending] and each later status is one
    the table permits after the status before it. *)
Theorem timeline_follows_table store id s :
  reachable store → store !! id = Some s →
  head (statuses s) = Some pending ∧ follows_table (statuses s).
Proof.
  intros Hr. revert id s. unfold reachable in Hr. revert store Hr.
  apply (rtc_ind_r (λ store, ∀ id s, store !! id = Some s →
           head (statuses s) = Some pending ∧ follows_table (statuses s)));
    [intros id s Hs; by rewrite lookup_empty in Hs|].
  intros store1 store2 Hr1 Hstep IH id s.
  destruct (step_detail _ _ Hstep)
    as [->|[(j & s1 & -> & _ & _ & _ & _ & _ & _ & e & Htl & He)
           |[(j & s0 & s1 & e & Hs0 & -> & Htl & _ & Hin & _)
            |(j & s0 & s1 & Hs0 & -> & _ & _ & _ & Htl & _)]]];
    [apply IH|..]; rewrite lookup_insert; case_decide; try apply IH.
  - intros [= <-]. unfold statuses. rewrite Htl. cbn. by rewrite He.
  - intros [= <-]. destruct (IH _ _ Hs0) as [Hhd Hft].
    destruct (reachable_well_tracked _ Hr1 _ _ Hs0) as [[_ Hlast] _].
    unfold statuses in *. rewrite Htl, fmap_app. cbn [fmap list_fmap].
    split.
    + destruct (timeline s0); [done|]. exact Hhd.
    + eapply follows_table_snoc; [|exact Hin|exact Hft].
      by rewrite fmap_last.
  - intros [= <-]. unfold statuses. rewrite Htl. by eapply IH.
Qed.

Lemma timeline_follows_table_witness :
  ∃ s, Samples.shipments_delivered !! 1%positive = Some s
       ∧ statuses s = [pending; assigned; picked; processing; in_transit; delivered]
       ∧ follows_table (statuses s).
Proof.
  eexists. split; [vm_compute; reflexivity|]. split; [vm_compute; reflexivity|].
  eapply (timeline_follows_table Samples.shipments_delivered 1);
    [|vm_compute; reflexivity].
  unfold reachable, Samples.shipments_delivered, Samples.driver_reports.
  eapply rtc_r; [|apply step_status]. eapply rtc_r; [|apply step_status].
  eapply rtc_r; [|apply step_status]. eapply rtc_r; [|apply step_status].
  eapply rtc_r; [|apply step_assign]. eapply rtc_r; [|apply step_create].
  apply rtc_refl.
Defined.

(** X2. A shipment whose status is [delivered], [returned] or
    [cancelled] keeps it for good: whatever requests follow, nothing of the
    stored document changes but its lists of documents and photos, which
    the upload handlers append to whatever the status. *)
Theorem terminal_shipment_frozen store store' id s :
  rtc step store store' → store !! id = Some s → terminal (status s) →
  ∃ s', store' !! id = Some s' ∧ filed s s'.
Proof.
  intros Hr Hs Hterm. revert store' Hr.
  apply rtc_ind_r; [exists s; split; [done|apply filed_refl]|].
  intros store1 store2 _ Hstep (s1 & Hs1 & Hf).
  destruct (step_detail _ _ Hstep)
    as [->|[(j & s2 & -> & Hnone & _)
           |[(j & s0 & s2 & e & Hs0 & -> & _ & _ & Hin & _)
            |(j & s0 & s2 & Hs0 & -> & Hf2)]]];
    [eauto|..]; rewrite lookup_insert;
    (destruct (decide (j = id)) as [->|]; [|eauto]); simplify_eq.
  - exfalso. destruct Hf as (_ & _ & Hst & _). rewrite Hst in Hin.
    destruct Hterm as [H|[H|H]]; rewrite H in Hin; set_solver.
  - exists s2. split; [done|]. by eapply filed_trans.
Qed.

Lemma terminal_shipment_frozen_witness :
  ∃ s s',
    Samples.shipments_delivered !! 1%positive = Some s
    ∧ (upload_documents (Samples.env_at 8000) Samples.a_driver 1
         [mkUploadedFile f_deliveryReceipt "receipt.pdf"
            "http://localhost/uploads/receipt.pdf"]
         (update_status (Samples.env_at 7000) Samples.an_admin 1
            (mkStatusBody cancelled None None) Samples.shipments_delivered).2).2
      !! 1%positive = Some s'
    ∧ status s' = delivered ∧ timeline s' = timeline s
    ∧ length (documents s') = 1%nat.
Proof.
  destruct (terminal_shipment_frozen Samples.shipments_delivered
              (upload_documents (Samples.env_at 8000) Samples.a_driver 1
                 [mkUploadedFile f_deliveryReceipt "receipt.pdf"
                    "http://localhost/uploads/receipt.pdf"]
                 (update_status (Samples.env_at 7000) Samples.an_admin 1
                    (mkStatusBody cancelled None None)
                    Samples.shipments_delivered).2).2
              1 _
              ltac:(eapply rtc_l; [apply step_status|apply rtc_once, step_documents])
              ltac:(vm_compute; reflexivity) ltac:(by left))
    as (s' & Hs' & _ & _ & Hst & Htl & _).
  eexists _, s'. split; [vm_compute; reflexivity|]. split; [exact Hs'|].
  split; [exact Hst|]. split; [exact Htl|].
  vm_compute in Hs'. injection Hs' as <-. reflexivity.
Defined.

(** X3. No request removes a shipment or rewrites its history: a stored
    shipment is still stored afterwards, its earlier timeline is a prefix
    of the later one, and its identifiers, client, manifest, totals,
    addresses and requested dates are what they were. *)
Theorem shipment_history_append_only store store' id s0 :
  rtc step store store' → store !! id = Some s0 →
  ∃ s, store' !! id = Some s
       ∧ timeline s0 `prefix_of` timeline s
       ∧ same_consignment s0 s.
Proof.
  intros Hr Hs0. revert store' Hr.
  apply rtc_ind_r.
  { exists s0. split; [done|]. split; [done|apply same_consignment_refl]. }
  intros store1 store2 _ Hstep (s1 & Hs1 & Hpre & Hsame).
  destruct (step_detail _ _ Hstep)
    as [->|[(j & s2 & -> & Hnone & _)
           |[(j & sa & sb & e & Hsa & -> & Htl & _ & _ & Hc & _)
            |(j & sa & sb & Hsa & -> & Hc & _ & _ & Htl & _)]]];
    [eauto|..]; rewrite lookup_insert; case_decide; simplify_eq; eauto.
  - exists sb. split; [done|]. split.
    + rewrite Htl. etrans; [exact Hpre|]. by apply prefix_app_r.
    + by eapply same_consignment_trans.
  - exists sb. split; [done|]. split.
    + by rewrite Htl.
    + by eapply same_consignment_trans.
Qed.

Lemma shipment_history_append_only_witness :
  ∃ s0 s, Samples.shipments1 !! 1%positive = Some s0
          ∧ Samples.shipments_delivered !! 1%positive = Some s
          ∧ timeline s0 `prefix_of` timeline s
          ∧ trackingNumber s = trackingNumber s0.
Proof.
  destruct (shipment_history_append_only Samples.shipments1
              Samples.shipments_delivered 1 _
              ltac:(unfold Samples.shipments_delivered, Samples.driver_reports,
                      Samples.shipments2;
                    eapply rtc_r; [|apply step_status];
                    eapply rtc_r; [|apply step_status];
                    eapply rtc_r; [|apply step_status];
                    eapply rtc_r; [|apply step_status];
                    eapply rtc_r; [|apply step_assign]; apply rtc_refl)
              ltac:(vm_compute; reflexivity))
    as (s & Hs & Hpre & Hsame).
  eexists _, s. split; [vm_compute; reflexivity|]. split; [exact Hs|].
  split; [exact Hpre|]. apply Hsame.
Defined.

(** X4. Shipments are visible by role.  A driver who is not the assigned
    driver of a shipment can neither read it (404) nor update its status
    (the collection is left as it was); a client reads only shipments of
    their own; whoever gets a shipment back from the read handler is an
    administrator, its assigned driver or its client. *)
Theorem shipment_isolation env who id b store s :
  store !! id = Some s →
  (userType who = driver → driver_ref s ≠ Some (user_id who) →
   get_shipment who id store = fail 404 "Shipment not found"
   ∧ (update_status env who id b store).2 = store
   ∧ success (update_status env who id b store).1 = false
   ∧ (valid_status_body b = true →
      (update_status env who id b store).1
      = fail 404 "Shipment not found or not authorized"))
  ∧ (userType who = client → client_ref s ≠ user_id who →
     get_shipment who id store = fail 404 "Shipment not found")
  ∧ (success (get_shipment who id store) = true →
     get_shipment who id store = ok 200 "" s
     ∧ (userType who = admin
        ∨ (userType who = driver ∧ driver_ref s = Some (user_id who))
        ∨ (userType who = client ∧ client_ref s = user_id who))).
Proof.
  intros Hs. unfold get_shipment, find_visible, update_status, find_for.
  rewrite Hs. split; [|split].
  - intros Hd Hne. rewrite Hd, bool_decide_eq_false_2 by done.
    destruct (valid_status_body b); cbn; repeat split; done.
  - intros Hc Hne. by rewrite Hc, bool_decide_eq_false_2.
  - destruct (userType who); [case_bool_decide|case_bool_decide|];
      cbn; intros; try done; eauto 10.
Qed.

Lemma shipment_isolation_witness :
  let other := mkPrincipal driver 12 in
  get_shipment other 1 Samples.shipments2 = fail 404 "Shipment not found"
  ∧ (update_status (Samples.env_at 3000) other 1 (mkStatusBody picked None None)
       Samples.shipments2).2 = Samples.shipments2.
Proof.
  intros other.
  destruct (shipment_isolation (Samples.env_at 3000) other 1
              (mkStatusBody picked None None) Samples.shipments2 _
              ltac:(vm_compute; reflexivity)) as (Hdrv & _).
  destruct (Hdrv eq_refl ltac:(vm_compute; discriminate)) as (Hget & Hupd & _).
  by split.
Defined.

(** X5. The status handler never touches the driver reference.  So when
    an administrator moves a [pending] shipment to [assigned] through it,
    the request succeeds and the shipment is [assigned] with whatever driver
    it had, none if it had none. *)
Theorem status_route_keeps_driver env who id b store :
  (success (update_status env who id b store).1 = true →
   ∃ s0 s, store !! id = Some s0
           ∧ (update_status env who id b store).2 = <[id := s]> store
           ∧ status s = sb_status b ∧ driver_ref s = driver_ref s0)
  ∧ (∀ s0, userType who = admin → store !! id = Some s0 →
           status s0 = pending → valid_status_body b = true →
           sb_status b = assigned →
           ∃ s, update_status env who id b store
                = (ok 200 "Shipment status updated successfully" s,
                   <[id := s]> store)
                ∧ status s = assigned ∧ driver_ref s = driver_ref s0).
Proof.
  split.
  - unfold update_status, save.
    destruct (valid_status_body b); cbn [negb]; [|done].
    destruct (find_for who id store) as [s0|] eqn:Hf; [|done].
    case_bool_decide; cbn [negb fst snd]; [|done]. intros _.
    rewrite pre_save_existing. eexists s0, _.
    split; [by eapply find_for_lookup|]. split; [reflexivity|].
    by rewrite updateStatus_status, updateStatus_driver.
  - intros s0 Ha Hs0 Hp Hv Hb. unfold update_status, find_for, save.
    rewrite Hv, Hs0, Ha, Hp, Hb. cbn [negb].
    rewrite bool_decide_eq_true_2 by set_solver. cbn [negb].
    rewrite pre_save_existing. eexists. split; [reflexivity|].
    by rewrite updateStatus_status, updateStatus_driver.
Qed.

Lemma status_route_keeps_driver_witness :
  ∃ s, update_status (Samples.env_at 2000) Samples.an_admin 1
         (mkStatusBody assigned None None) Samples.shipments1
       = (ok 200 "Shipment status updated successfully" s,
          <[1%positive := s]> Samples.shipments1)
       ∧ status s = assigned ∧ driver_ref s = None.
Proof.
  destruct (status_route_keeps_driver (Samples.env_at 2000) Samples.an_admin 1
              (mkStatusBody assigned None None) Samples.shipments1) as [_ H].
  destruct (H _ eq_refl ltac:(vm_compute; reflexivity) eq_refl eq_refl eq_refl)
    as (s & Hr & Hst & Hd).
  exists s. split; [exact Hr|]. split; [exact Hst|]. exact Hd.
Defined.

(** X6. The actual dates agree with the timeline: a stored shipment whose
    timeline has a [picked] entry has its actual pickup date set, and one
    whose timeline has a [delivered] entry (in particular one whose status
    is [delivered]) has its actual delivery date set. *)
Theorem actual_dates_stamped store id s :
  reachable store → store !! id = Some s →
  (picked ∈ statuses s → is_Some (actualPickupDate s))
  ∧ (delivered ∈ statuses s → is_Some (actualDeliveryDate s))
  ∧ (status s = delivered → is_Some (actualDeliveryDate s)).
Proof.
  intros Hr Hs.
  assert (Hst : stamped s).
  { revert id s Hs. unfold reachable in Hr. revert store Hr.
    apply (rtc_ind_r (λ store, ∀ id s, store !! id = Some s → stamped s));
      [intros id s Hs; by rewrite lookup_empty in Hs|].
    intros store1 store2 _ Hstep IH id s.
    destruct (step_detail _ _ Hstep)
      as [->|[(j & s1 & -> & _ & _ & _ & _ & _ & _ & e & Htl & He)
             |[(j & s0 & s1 & e & Hs0 & -> & Htl & _ & _ & _ & Hpk & Hdl & _)
              |(j & s0 & s1 & Hs0 & -> & _ & _ & _ & Htl & Hpk & Hdl & _)]]];
      [apply IH|..]; rewrite lookup_insert;
      (destruct (decide (j = id)) as [->|]; [|apply IH]).
    - intros [= <-]. unfold stamped, statuses. rewrite Htl. cbn. rewrite He.
      split; intros Hq%list_elem_of_singleton; discriminate.
    - intros [= <-]. destruct (IH _ _ Hs0) as [Hp Hd].
      unfold stamped, statuses in *. rewrite Htl, fmap_app, Hpk, Hdl.
      clear Hpk Hdl. cbn [fmap list_fmap].
      split; intros [Hin|Hin%list_elem_of_singleton]%elem_of_app;
        case_bool_decide; first [congruence | by eauto | by eexists].
    - intros [= <-]. destruct (IH _ _ Hs0) as [Hp Hd].
      unfold stamped, statuses in *. by rewrite Htl, Hpk, Hdl. }
  destruct Hst as [Hp Hd]. split; [done|]. split; [done|].
  intros Hdel. apply Hd.
  destruct (reachable_well_tracked _ Hr _ _ Hs) as [[_ Hlast] _].
  unfold statuses. rewrite <- Hdel.
  destruct (last (timeline s)) as [e|] eqn:He; [|done].
  simpl in Hlast. injection Hlast as <-.
  apply list_elem_of_fmap. exists e. split; [done|].
  apply last_Some in He as [l ->]. set_solver.
Qed.

Lemma actual_dates_stamped_witness :
  ∃ s, Samples.shipments_delivered !! 1%positive = Some s
       ∧ status s = delivered
       ∧ is_Some (actualPickupDate s) ∧ is_Some (actualDeliveryDate s).
Proof.
  assert (Hr : reachable Samples.shipments_delivered).
  { unfold reachable, Samples.shipments_delivered, Samples.driver_reports.
    eapply rtc_r; [|apply step_status]. eapply rtc_r; [|apply step_status].
    eapply rtc_r; [|apply step_status]. eapply rtc_r; [|apply step_status].
    eapply rtc_r; [|apply step_assign]. eapply rtc_r; [|apply step_create].
    apply rtc_refl. }
  eexists. split; [vm_compute; reflexivity|]. split; [reflexivity|].
  destruct (actual_dates_stamped Samples.shipments_delivered 1 _ Hr
              ltac:(vm_compute; reflexivity)) as (Hp & _ & Hd).
  split; [apply Hp|apply Hd; reflexivity].
  apply (bool_decide_unpack _). vm_compute. exact I.
Defined.

Lemma ceil_div_bounds a b :
  0 < b → (Paging.ceil_div a b - 1) * b < a ≤ Paging.ceil_div a b * b.
Proof.
  intros Hb. unfold Paging.ceil_div.
  pose proof (Z.div_mod (- a) b ltac:(lia)) as Hdm.
  pose proof (Z.mod_pos_bound (- a) b Hb) as Hm. nia.
Qed.

(** X7. The estimated transit time of every stored shipment is a whole
    number of days, at least one: the least number of days that covers the
    span from the requested pickup to the requested delivery. *)
Theorem transit_time_at_least_a_day store id s :
  reachable store → store !! id = Some s →
  let t := estimatedTransitTime s in
  let span := requestedDeliveryDate s - requestedPickupDate s in
  1 ≤ t ∧ (t - 1) * Paging.ms_per_day < span ≤ t * Paging.ms_per_day.
Proof.
  intros Hr Hs.
  assert (Hspan : 0 < requestedDeliveryDate s - requestedPickupDate s).
  { revert id s Hs. unfold reachable in Hr. revert store Hr.
    apply (rtc_ind_r (λ store, ∀ id s, store !! id = Some s →
             0 < requestedDeliveryDate s - requestedPickupDate s));
      [intros id s Hs; by rewrite lookup_empty in Hs|].
    intros store1 store2 _ Hstep IH id s.
    destruct (step_detail _ _ Hstep)
      as [->|[(j & s1 & -> & _ & _ & _ & _ & _ & Hlt & _)
             |[(j & s0 & s1 & e & Hs0 & -> & _ & _ & _ & Hc & _)
              |(j & s0 & s1 & Hs0 & -> & Hc & _)]]];
      [apply IH|..]; rewrite lookup_insert;
      (destruct (decide (j = id)) as [->|]; [|apply IH]).
    - intros [= <-]. lia.
    - intros [= <-].
      destruct Hc as (_ & _ & _ & _ & _ & _ & _ & _ & _ & _ & _ & -> & ->).
      by eapply IH.
    - intros [= <-].
      destruct Hc as (_ & _ & _ & _ & _ & _ & _ & _ & _ & _ & _ & -> & ->).
      by eapply IH. }
  intros t span.
  pose proof (ceil_div_bounds span Paging.ms_per_day ltac:(done)) as Hb.
  split; [|exact Hb].
  subst t. unfold estimatedTransitTime. fold span.
  fold span in Hspan. unfold Paging.ms_per_day in *. nia.
Qed.

Lemma transit_time_at_least_a_day_witness :
  ∃ s, Samples.shipments1 !! 1%positive = Some s
       ∧ 1 ≤ estimatedTransitTime s
       ∧ estimatedTransitTime s = 3.
Proof.
  eexists. split; [vm_compute; reflexivity|].
  destruct (transit_time_at_least_a_day Samples.shipments1 1 _
              ltac:(apply rtc_once, step_create) ltac:(vm_compute; reflexivity))
    as [Hone _].
  split; [exact Hone|]. vm_compute. reflexivity.
Defined.

Lemma reachable_milestones store :
  reachable store → ∀ id s, store !! id = Some s → milestones s.
Proof.
  unfold reachable. revert store.
  apply (rtc_ind_r (λ store, ∀ id s, store !! id = Some s → milestones s));
    [intros id s Hs; by rewrite lookup_empty in Hs|].
  intros store1 store2 Hr1 Hstep IH id s.
  destruct (step_detail _ _ Hstep)
    as [->|[(j & s1 & -> & _ & Hst & _ & _ & _ & _ & e & Htl & He)
           |[(j & s0 & s1 & e & Hs0 & -> & Htl & Hst & Hin & _)
            |(j & s0 & s1 & Hs0 & -> & _ & _ & Hst & Htl & _)]]];
    [apply IH|..]; rewrite lookup_insert;
    (destruct (decide (j = id)) as [->|]; [|apply IH]); intros [= <-].
  - unfold milestones, statuses. rewrite Htl, Hst. cbn. rewrite He.
    split; [by intros Hq%list_elem_of_singleton|].
    repeat split; try done. intros [Hq|[Hq|[Hq|Hq]]]; done.
  - pose proof (IH _ _ Hs0) as (Hpk & Hpk' & Has & Htr).
    destruct (reachable_well_tracked _ Hr1 _ _ Hs0) as [[_ Hlast] _].
    assert (Hcur : status s0 ∈ statuses s0).
    { unfold statuses. destruct (last (timeline s0)) as [e0|] eqn:Hl; [|done].
      cbn in Hlast. injection Hlast as <-.
      apply last_Some in Hl as [l ->]. rewrite fmap_app.
      apply elem_of_app. right. by apply list_elem_of_singleton. }
    unfold milestones, statuses in *. rewrite Htl, fmap_app, Hst.
    cbn [fmap list_fmap].
    setoid_rewrite elem_of_app. setoid_rewrite list_elem_of_singleton.
    destruct (status s0) eqn:Ha; cbn in Hin;
      repeat (apply elem_of_cons in Hin as [Hb|Hin]);
      try (by apply elem_of_nil in Hin);
      rewrite Hb; clear Hb;
      (repeat split; intros; destruct_or?; try discriminate; try congruence;
       try (destruct Hpk as (? & ? & ?); [assumption|]; try congruence);
       auto 6).
  - unfold milestones, statuses. rewrite Htl, Hst. by eapply IH.
Qed.

(** X8. Milestones.  A shipment whose timeline has a [picked] entry is
    never [pending] or [assigned] again, and can be [cancelled] only after
    it has [failed]; and a shipment whose status is [delivered] was
    [assigned], [picked] and [in_transit] before. *)
Theorem shipment_milestones store id s :
  reachable store → store !! id = Some s →
  (picked ∈ statuses s →
   status s ≠ pending ∧ status s ≠ assigned
   ∧ (status s = cancelled → failed ∈ statuses s))
  ∧ (status s = delivered →
     assigned ∈ statuses s ∧ picked ∈ statuses s ∧ in_transit ∈ statuses s).
Proof.
  intros Hr Hs. destruct (reachable_milestones _ Hr _ _ Hs) as (H1 & H2 & H3 & H4).
  split; [done|]. intros Hd. rewrite Hd in *. repeat split; auto.
Qed.

Lemma shipment_milestones_witness :
  ∃ s, Samples.shipments_delivered !! 1%positive = Some s
       ∧ status s = delivered
       ∧ (assigned ∈ statuses s) ∧ (picked ∈ statuses s)
       ∧ (in_transit ∈ statuses s).
Proof.
  assert (Hr : reachable Samples.shipments_delivered).
  { unfold reachable, Samples.shipments_delivered, Samples.driver_reports.
    eapply rtc_r; [|apply step_status]. eapply rtc_r; [|apply step_status].
    eapply rtc_r; [|apply step_status]. eapply rtc_r; [|apply step_status].
    eapply rtc_r; [|apply step_assign]. eapply rtc_r; [|apply step_create].
    apply rtc_refl. }
  eexists. split; [vm_compute; reflexivity|]. split; [reflexivity|].
  destruct (shipment_milestones Samples.shipments_delivered 1 _ Hr
              ltac:(vm_compute; reflexivity)) as [_ Hd].
  apply Hd. reflexivity.
Defined.

End ShipmentFurther.

(** ** Pagination *)

Section PagingFacts.
Import Paging.




End PagingFacts.

(** ** More on payments *)

Section PaymentFurther.
Import ClientModel PaymentModel PaymentRoutes PaymentHistory PaymentViews.

(** What one request does to the collection of payments. *)
Lemma payment_step_cases store store' :
  step store store' →
  store' = store
  ∨ (∃ id p, store' = <[id := p]> store ∧ store !! id = None ∧ opened p)
  ∨ (∃ env id p p', store !! id = Some p ∧ store' = <[id := p']> store
                    ∧ touched env p p').
Proof.
  destruct 1 as [pid method env b shipments clients store|env who id b store
                |env who id b store|show env who id b store].
  - unfold create_payment_with, create.
    destruct (valid_create b); cbn [negb]; [|by left].
    destruct (shipments !! cb_shipmentId b) as [sh|]; [|by left].
    destruct (exists_for_shipment _ _); [by left|].
    destruct (clients !! _) as [cl|]; [|by left].
    destruct (validate _); [|by left].
    right; left. cbn [snd]. eexists _, _. split; [reflexivity|].
    split; [apply (not_elem_of_dom (D:=gset ObjectId)), is_fresh|].
    unfold opened.
    match goal with
    | |- context [pre_save ?e ?n ?m ?p] =>
        destruct (payment_pre_save_fields e n m p) as (-> & _ & -> & -> & _ & ->)
    end.
    cbn. repeat split; eauto.
    unfold pre_save. repeat case_match; cbn; eauto.
  - unfold update_status, save.
    destruct (valid_status_body b) eqn:Hv; cbn [negb]; [|by left].
    destruct (store !! id) as [p|] eqn:Hp; [|by left].
    right; right. cbn [snd]. rewrite payment_pre_save_existing.
    assert (Hin : sb_status b ∈ settable_statuses).
    { unfold valid_status_body in Hv.
      repeat (apply andb_prop in Hv as [Hv ?]). by apply bool_decide_eq_true in Hv. }
    eexists env, id, p, _. split; [done|]. split; [reflexivity|].
    case_match; by constructor.
  - unfold refund, save.
    destruct (valid_refund_body b) eqn:Hv; cbn [negb]; [|by left].
    destruct (store !! id) as [p|] eqn:Hp; [|by left].
    case_bool_decide as Hc; cbn [negb]; [|by left].
    destruct (num_gt _ _) eqn:Hgt; [by left|].
    right; right. cbn [snd]. rewrite payment_pre_save_existing.
    eexists env, id, p, _. split; [done|]. split; [reflexivity|].
    constructor; [done| |done].
    unfold valid_refund_body in Hv. by apply andb_prop in Hv as [Hv _].
  - unfold record_partial, save.
    destruct (valid_partial_body b) eqn:Hv; cbn [negb]; [|by left].
    destruct (store !! id) as [p|] eqn:Hp; [|by left].
    destruct (num_gt _ _) eqn:Hgt; [by left|].
    right; right. cbn [snd]. rewrite payment_pre_save_existing.
    assert (Hpos : isFloat_min 0.01 (pb_amount b) = true).
    { unfold valid_partial_body in Hv. by apply andb_prop in Hv as [Hv _]. }
    eexists env, id, p, _. split; [done|]. split; [reflexivity|].
    case_match; constructor; auto.
Qed.

Lemma settable_recorded st : st ∈ settable_statuses → recorded st.
Proof.
  unfold settable_statuses, recorded. intros H.
  repeat (apply elem_of_cons in H as [->|H]); auto 10.
  by apply elem_of_nil in H.
Qed.

Lemma updateStatus_identity env st n by_ u amt p :
  let p' := updateStatus env st n by_ u amt p in
  paymentId p' = paymentId p ∧ client_ref p' = client_ref p
  ∧ dueDate p' = dueDate p ∧ terms p' = terms p.
Proof. unfold updateStatus. by case_bool_decide. Qed.

Lemma addRefund_identity env rd p :
  let p' := addRefund env rd p in
  paymentId p' = paymentId p ∧ client_ref p' = client_ref p
  ∧ dueDate p' = dueDate p ∧ terms p' = terms p
  ∧ paidDate p' = paidDate p
  ∧ (status p' = refunded ∨ status p' = partially_refunded ∨ status p' = status p).
Proof. unfold addRefund. repeat case_match; cbn; auto 10. Qed.

Lemma ledger_ok_updateStatus env st n by_ u amt p :
  recorded st → ledger_ok p → ledger_ok (updateStatus env st n by_ u amt p).
Proof.
  intros Hst (Ha & Hc & Hd & He).
  destruct (updateStatus_fields env st n by_ u amt p)
    as (Hs & Ht & _ & Ham & Hr & Hpp & Hpd).
  unfold ledger_ok in *. rewrite Hs, Ht, Hpp, Hpd.
  repeat split; try done.
  - intros ->. by rewrite bool_decide_eq_true_2.
  - apply Forall_app. split; [done|]. by constructor.
  - intros _. by rewrite last_snoc.
Qed.

Lemma ledger_ok_push_partial x p :
  pp_status x = p_completed → isFloat_min 0.01 (pp_amount x) = true →
  ledger_ok p → ledger_ok (push_partial x p).
Proof.
  intros Hx Hpos (Ha & Hc & Hd & He).
  unfold ledger_ok in *. cbn [push_partial partialPayments amount
    status paidDate timeline refunds].
  repeat split; try done.
  apply Forall_app. split; [done|]. by repeat constructor.
Qed.

Lemma ledger_ok_addRefund env rd p :
  ledger_ok p → ledger_ok (addRefund env rd p).
Proof.
  intros (Ha & Hc & Hd & He).
  destruct (addRefund_fields env rd p) as (Hr & _ & Ham & Ht & Hpp).
  destruct (addRefund_identity env rd p) as (_ & _ & _ & _ & Hpd & Hst).
  unfold ledger_ok in *. rewrite Hr, Ht, Hpp, Hpd.
  repeat split; try done.
  - intros Hcomp. apply Hc. destruct Hst as [H|[H|H]]; congruence.
  - intros Hnil. by destruct (refunds p).
Qed.

Lemma ledger_ok_opened p : opened p → ledger_ok p.
Proof.
  intros (Hs & Hpd & Hr & Hpp & e & Ht & He). unfold ledger_ok.
  rewrite Hs, Hpp, Ht.
  split; [constructor|]. split; [done|].
  split; [|intros _; cbn; by rewrite He].
  constructor; [|constructor]. rewrite He. by left.
Qed.

Lemma ledger_ok_touched env p p' : touched env p p' → ledger_ok p → ledger_ok p'.
Proof.
  destruct 1 as [st n u p Hst|st n u t p Hst|rd p Hc Hpos Hle
                |x st n u amt p Hx Hpos Hle Hst]; intros Hok.
  - by apply ledger_ok_updateStatus; [apply settable_recorded|].
  - pose proof (ledger_ok_updateStatus env st n by_admin u None p
                  (settable_recorded _ Hst) Hok) as H.
    exact H.
  - by apply ledger_ok_addRefund.
  - apply ledger_ok_updateStatus.
    + unfold recorded. destruct Hst as [->| ->]; auto.
    + by apply ledger_ok_push_partial.
Qed.

Lemma reachable_ledger_ok store :
  reachable store → map_Forall (λ _, ledger_ok) store.
Proof.
  unfold reachable. revert store. apply rtc_ind_r; [apply map_Forall_empty|].
  intros store1 store2 _ Hstep IH.
  destruct (payment_step_cases _ _ Hstep)
    as [->|[(id & p & -> & _ & Hop)|(env & id & p & p' & Hp & -> & Ht)]]; [done|..];
    (apply map_Forall_insert_2; [|done]).
  - by apply ledger_ok_opened.
  - eapply ledger_ok_touched; eauto.
Qed.

Lemma reachable_payments1 : reachable Samples.payments1.
Proof. apply rtc_once, step_create. Qed.

Lemma reachable_payments_paid : reachable Samples.payments_paid.
Proof. eapply rtc_r; [apply reachable_payments1|apply step_status]. Qed.

Lemma reachable_payments_settled : reachable MoreSamples.payments_settled.
Proof.
  unfold MoreSamples.payments_settled, Samples.pay.
  eapply rtc_r; [|apply step_partial].
  eapply rtc_r; [apply reachable_payments1|apply step_partial].
Qed.

(** X12. A stored payment whose status is [completed] has its [paidDate]
    set. *)
Theorem completed_payment_has_paid_date store id p :
  reachable store → store !! id = Some p → status p = completed →
  is_Some (paidDate p).
Proof.
  intros Hr Hp Hc.
  destruct (reachable_ledger_ok _ Hr _ _ Hp) as (_ & Hpd & _). auto.
Qed.

Lemma completed_payment_has_paid_date_witness :
  ∃ p, MoreSamples.payments_settled !! 1%positive = Some p
       ∧ status p = completed ∧ is_Some (paidDate p).
Proof.
  eexists. split; [vm_compute; reflexivity|]. split; [reflexivity|].
  apply (completed_payment_has_paid_date MoreSamples.payments_settled 1 _
           reachable_payments_settled);
    vm_compute; reflexivity.
Defined.

(** X13. Until a refund is added, the status of a stored payment is the
    status of the last entry of its timeline, which is never empty. *)
Theorem payment_status_is_last_entry_until_refund store id p :
  reachable store → store !! id = Some p → refunds p = [] →
  timeline p ≠ [] ∧ e_status <$> last (timeline p) = Some (status p).
Proof.
  intros Hr Hp Hnil.
  destruct (reachable_ledger_ok _ Hr _ _ Hp) as (_ & _ & _ & He).
  specialize (He Hnil). split; [|done].
  intros Ht. by rewrite Ht in He.
Qed.

Lemma payment_status_is_last_entry_until_refund_witness :
  ∃ p, MoreSamples.payments_settled !! 1%positive = Some p
       ∧ (e_status <$> timeline p) = [pending; processing; completed]
       ∧ e_status <$> last (timeline p) = Some (status p).
Proof.
  eexists. split; [vm_compute; reflexivity|]. split; [vm_compute; reflexivity|].
  apply (payment_status_is_last_entry_until_refund MoreSamples.payments_settled
           1 _ reachable_payments_settled);
    vm_compute; reflexivity.
Defined.

(** X14. Refunds leave no trace in the timeline: no timeline entry of a
    stored payment ever carries [refunded] or [partially_refunded], and an
    accepted refund request changes the status to one of these two while
    the timeline stays as it was, so that afterwards the status is not the
    status of the last timeline entry. *)
Theorem refund_leaves_no_timeline_entry env who id b store :
  reachable store →
  (∀ j q e, store !! j = Some q → e ∈ timeline q →
            e_status e ≠ refunded ∧ e_status e ≠ partially_refunded)
  ∧ (success (refund env who id b store).1 = true →
     ∃ p p', store !! id = Some p
             ∧ (refund env who id b store).2 = <[id := p']> store
             ∧ timeline p' = timeline p
             ∧ (status p' = refunded ∨ status p' = partially_refunded)
             ∧ e_status <$> last (timeline p') ≠ Some (status p')).
Proof.
  intros Hr. split.
  - intros j q e Hq He.
    destruct (reachable_ledger_ok _ Hr _ _ Hq) as (_ & _ & Hd & _).
    rewrite Forall_forall in Hd. specialize (Hd e He).
    unfold recorded in Hd. split; intros Heq; rewrite Heq in Hd;
      repeat destruct Hd as [Hd|Hd]; discriminate.
  - intros Hok.
    destruct (accepted_refund_leaves_completed env who id b store Hr Hok)
      as (p & p' & Hp & Hc & Hp' & Hst).
    revert Hok Hp'. unfold refund, save.
    rewrite Hp. destruct (valid_refund_body b); cbn [negb]; [|done].
    rewrite bool_decide_eq_true_2 by done. cbn [negb].
    destruct (num_gt _ _); [done|]. cbn [fst snd]. intros _.
    rewrite lookup_insert_eq, payment_pre_save_existing. intros [= <-].
    exists p. eexists. split; [done|]. split; [reflexivity|].
    match goal with
    | |- context [addRefund ?e ?rd ?q] =>
        destruct (addRefund_fields e rd q) as (_ & _ & _ & Ht & _);
        set (p' := addRefund e rd q) in *
    end.
    split; [done|]. split; [done|].
    destruct (reachable_ledger_ok _ Hr _ _ Hp) as (_ & _ & Hd & _).
    rewrite Ht. intros Heq.
    destruct (last (timeline p)) as [e|] eqn:Hl; [|done].
    apply last_Some in Hl as [l Hl]. rewrite Hl in Hd.
    apply Forall_app in Hd as [_ Hd]. rewrite Forall_singleton in Hd.
    cbn in Heq. injection Heq as Heq. unfold recorded in Hd. rewrite Heq in Hd.
    destruct Hst as [Hs|Hs]; rewrite Hs in Hd;
      repeat destruct Hd as [Hd|Hd]; discriminate.
Qed.

Lemma refund_leaves_no_timeline_entry_witness :
  ∃ p p', Samples.payments_paid !! 1%positive = Some p
          ∧ MoreSamples.payments_refunded !! 1%positive = Some p'
          ∧ timeline p' = timeline p
          ∧ status p' = partially_refunded
          ∧ (e_status <$> last (timeline p')) = Some completed.
Proof.
  destruct (refund_leaves_no_timeline_entry (Samples.env_at 10000)
              Samples.an_admin 1 (Samples.a_refund 30) Samples.payments_paid
              reachable_payments_paid) as [_ H].
  destruct (H ltac:(vm_compute; reflexivity)) as (p & p' & Hp & Hr & Ht & _ & _).
  exists p, p'. split; [exact Hp|].
  unfold MoreSamples.payments_refunded. rewrite Hr.
  split; [apply lookup_insert_eq|]. split; [exact Ht|].
  assert (Hp' : MoreSamples.payments_refunded !! 1%positive = Some p').
  { unfold MoreSamples.payments_refunded. rewrite Hr. apply lookup_insert_eq. }
  vm_compute in Hp'. injection Hp' as <-. split; reflexivity.
Defined.

Lemma grown_refl p : grown p p.
Proof. by repeat split. Qed.

Lemma grown_trans p0 p1 p2 : grown p0 p1 → grown p1 p2 → grown p0 p2.
Proof.
  unfold grown.
  intros (? & ? & ? & ? & ? & ? & ? & ? & ?) (? & ? & ? & ? & ? & ? & ? & ? & ?).
  repeat split; try congruence; etrans; eauto.
Qed.

Lemma touched_grown env p p' : touched env p p' → grown p p'.
Proof.
  destruct 1 as [st n u p Hst|st n u t p Hst|rd p Hc Hpos Hle
                |x st n u amt p Hx Hpos Hle Hst]; unfold grown.
  - destruct (updateStatus_fields env st n by_admin u None p)
      as (_ & -> & -> & -> & -> & -> & _).
    destruct (updateStatus_identity env st n by_admin u None p)
      as (-> & -> & -> & ->).
    repeat split; try done. by apply prefix_app_r.
  - cbn [set_transactionId paymentId client_ref shipment_ref amount dueDate
           terms timeline refunds partialPayments].
    destruct (updateStatus_fields env st n by_admin u None p)
      as (_ & -> & -> & -> & -> & -> & _).
    destruct (updateStatus_identity env st n by_admin u None p)
      as (-> & -> & -> & ->).
    repeat split; try done. by apply prefix_app_r.
  - destruct (addRefund_fields env rd p) as (-> & -> & -> & -> & ->).
    destruct (addRefund_identity env rd p) as (-> & -> & -> & -> & _).
    repeat split; try done. by apply prefix_app_r.
  - destruct (updateStatus_fields env st n by_admin u amt (push_partial x p))
      as (_ & -> & -> & -> & -> & -> & _).
    destruct (updateStatus_identity env st n by_admin u amt (push_partial x p))
      as (-> & -> & -> & ->).
    cbn [push_partial paymentId client_ref shipment_ref amount dueDate
           terms timeline refunds partialPayments].
    repeat split; try done; by apply prefix_app_r.
Qed.

(** X15. No request removes a payment or rewrites it: a stored payment is
    still stored afterwards with the same identifier, client, shipment,
    amount, due date and terms, and its timeline, refunds and partial
    payments have only been appended to. *)
Theorem payment_ledger_append_only store store' id p0 :
  rtc step store store' → store !! id = Some p0 →
  ∃ p, store' !! id = Some p ∧ grown p0 p.
Proof.
  intros Hr Hp0. revert store' Hr. apply rtc_ind_r.
  { exists p0. split; [done|apply grown_refl]. }
  intros store1 store2 _ Hstep (p1 & Hp1 & Hg).
  destruct (payment_step_cases _ _ Hstep)
    as [->|[(j & q & -> & Hnone & _)|(env & j & q & q' & Hq & -> & Ht)]];
    [eauto|..]; rewrite lookup_insert;
    (destruct (decide (j = id)) as [->|]; [|eauto]); simplify_eq.
  exists q'. split; [done|]. eapply grown_trans; [exact Hg|].
  by eapply touched_grown.
Qed.

Lemma payment_ledger_append_only_witness :
  ∃ p0 p, Samples.payments1 !! 1%positive = Some p0
          ∧ MoreSamples.payments_settled !! 1%positive = Some p
          ∧ amount p = amount p0
          ∧ timeline p0 `prefix_of` timeline p.
Proof.
  destruct (payment_ledger_append_only Samples.payments1
              MoreSamples.payments_settled 1 _
              ltac:(unfold MoreSamples.payments_settled, Samples.pay;
                    eapply rtc_r; [|apply step_partial];
                    apply rtc_once, step_partial)
              ltac:(vm_compute; reflexivity))
    as (p & Hp & Hg).
  eexists _, p. split; [vm_compute; reflexivity|]. split; [exact Hp|].
  split; apply Hg.
Defined.

(** X16. After an accepted refund, further refund requests for the same
    payment are refused, and store nothing, for as long as its status is
    not set back to [completed]. *)
Theorem second_refund_refused env who id b env' who' b' store :
  reachable store → success (refund env who id b store).1 = true →
  let store1 := (refund env who id b store).2 in
  success (refund env' who' id b' store1).1 = false
  ∧ (refund env' who' id b' store1).2 = store1
  ∧ (valid_refund_body b' = true →
     (refund env' who' id b' store1).1
     = fail 400 "Can only refund completed payments").
Proof.
  intros Hr Hok store1.
  destruct (accepted_refund_leaves_completed env who id b store Hr Hok)
    as (p & p' & _ & _ & Hp' & Hst).
  fold store1 in Hp'. clearbody store1. unfold refund. rewrite Hp'.
  assert (Hnc : status p' ≠ completed) by (destruct Hst as [-> | ->]; done).
  rewrite (bool_decide_eq_false_2 _ Hnc).
  by destruct (valid_refund_body b').
Qed.

Lemma second_refund_refused_witness :
  refund (Samples.env_at 10500) Samples.an_admin 1 (Samples.a_refund 10)
         MoreSamples.payments_refunded
  = (fail 400 "Can only refund completed payments", MoreSamples.payments_refunded).
Proof.
  destruct (second_refund_refused (Samples.env_at 10000) Samples.an_admin 1
              (Samples.a_refund 30) (Samples.env_at 10500) Samples.an_admin
              (Samples.a_refund 10) Samples.payments_paid
              reachable_payments_paid ltac:(vm_compute; reflexivity))
    as (_ & Hstore & Hmsg).
  fold MoreSamples.payments_refunded in Hstore, Hmsg.
  rewrite (surjective_pairing (refund _ _ _ _ _)), Hstore, Hmsg; reflexivity.
Defined.

(** In a collection the handlers produced, a well-formed refund request of
    at most [amount.total] against a completed payment is accepted. *)
Lemma refund_accepts env who id b store p :
  reachable store → store !! id = Some p → status p = completed →
  valid_refund_body b = true →
  num_gt (rb_amount b) (total (amount p)) = false →
  refund env who id b store
  = (let p' := addRefund env
                 (mkRefundData (rb_amount b) (rb_reason b)
                    (trim <$> rb_reasonDescription b)
                    (default original_method (rb_refundMethod b)) (user_id who)) p in
     (ok 200 "Refund processed successfully" p', <[id := p']> store)).
Proof.
  intros Hr Hp Hc Hv Hle. unfold refund, save.
  rewrite Hv, Hp, (bool_decide_eq_true_2 _ Hc). cbn [negb].
  apply reachable_invariants in Hr as [_ Hpend].
  rewrite (refunds_pending_totalRefunded p (Hpend _ _ Hp)), num_sub_zero, Hle.
  by rewrite payment_pre_save_existing.
Qed.

(** X17. The refund guard counts only completed refunds, and no refund is
    ever completed: once an administrator has set a refunded payment back
    to [completed], the amount already refunded can be refunded again.  Two
    refunds of [a] with that status change between them are both accepted
    and both stored, whatever [a] of at least 0.01 that is not greater than
    [amount.total]. *)
Theorem refund_guard_ignores_pending_refunds
    env1 env2 env3 who id a reason store p :
  reachable store → store !! id = Some p → status p = completed →
  isFloat_min 0.01 a = true → num_gt a (total (amount p)) = false →
  let b := mkRefundBody a reason None None in
  let store1 := (refund env1 who id b store).2 in
  let store2 := (update_status env2 who id (mkStatusBody completed None None) store1).2 in
  let r3 := refund env3 who id b store2 in
  success r3.1 = true
  ∧ ∃ p3 r1 r2, r3.2 !! id = Some p3
                ∧ refunds p3 = refunds p ++ [r1; r2]
                ∧ r_amount r1 = a ∧ r_amount r2 = a
                ∧ amount p3 = amount p.
Proof.
  intros Hr Hp Hc Hpos Hle b store1 store2 r3.
  assert (Hv : valid_refund_body b = true).
  { unfold valid_refund_body, b. cbn. by rewrite Hpos. }
  assert (Hr1 : reachable store1) by (eapply rtc_r; [exact Hr|apply step_refund]).
  assert (Hr2 : reachable store2) by (eapply rtc_r; [exact Hr1|apply step_status]).
  pose proof (refund_accepts env1 who id b store p Hr Hp Hc Hv Hle) as E1.
  cbv zeta in E1.
  set (p1 := addRefund env1 _ p) in E1.
  assert (Hs1 : store1 = <[id := p1]> store) by (unfold store1; by rewrite E1).
  assert (Hs2 : store2 = <[id := updateStatus env2 completed None by_admin
                                   (Some (user_id who)) None p1]> store1).
  { assert (Hl : store1 !! id = Some p1)
      by (rewrite Hs1; apply lookup_insert_eq).
    assert (Hvs : valid_status_body (mkStatusBody completed None None) = true)
      by (vm_compute; reflexivity).
    unfold store2, update_status, save. rewrite Hvs, Hl. reflexivity. }
  set (p2 := updateStatus env2 completed None by_admin (Some (user_id who)) None p1)
    in Hs2.
  destruct (updateStatus_fields env2 completed None by_admin (Some (user_id who))
              None p1) as (Hst2 & _ & _ & Ham2 & Hrf2 & _).
  fold p2 in Hst2, Ham2, Hrf2.
  destruct (addRefund_fields env1
              (mkRefundData (rb_amount b) (rb_reason b)
                 (trim <$> rb_reasonDescription b)
                 (default original_method (rb_refundMethod b)) (user_id who)) p)
    as (Hrf1 & _ & Ham1 & _).
  fold p1 in Hrf1, Ham1.
  assert (Hp2 : store2 !! id = Some p2) by (rewrite Hs2; apply lookup_insert_eq).
  pose proof (refund_accepts env3 who id b store2 p2 Hr2 Hp2 Hst2 Hv
                ltac:(rewrite Ham2, Ham1; exact Hle)) as E3.
  cbv zeta in E3. subst r3. rewrite E3. cbn [fst snd success ok].
  split; [done|]. eexists _, _, _. split; [apply lookup_insert_eq|].
  match goal with
  | |- context [addRefund ?e ?rd p2] =>
      destruct (addRefund_fields e rd p2) as (-> & _ & -> & _)
  end.
  rewrite Hrf2, Hrf1, Ham2, Ham1, <- app_assoc. by repeat split.
Qed.

Lemma refund_guard_ignores_pending_refunds_witness :
  ∃ p3, (refund (Samples.env_at 10200) Samples.an_admin 1 (Samples.a_refund 100)
           (update_status (Samples.env_at 10100) Samples.an_admin 1
              MoreSamples.mark_completed
              (refund (Samples.env_at 10000) Samples.an_admin 1
                 (Samples.a_refund 100) Samples.payments_paid).2).2).2
        !! 1%positive = Some p3
        ∧ total (amount p3) = 100%float
        ∧ r_amount <$> refunds p3 = [100%float; 100%float].
Proof.
  destruct (refund_guard_ignores_pending_refunds (Samples.env_at 10000)
              (Samples.env_at 10100) (Samples.env_at 10200) Samples.an_admin 1
              100 client_request Samples.payments_paid _
              reachable_payments_paid ltac:(vm_compute; reflexivity) eq_refl
              ltac:(vm_compute; reflexivity) ltac:(vm_compute; reflexivity))
    as (_ & p3 & r1 & r2 & Hp3 & Hrf & Ha1 & Ha2 & Ham).
  exists p3. split; [exact Hp3|]. split; [by rewrite Ham|].
  rewrite Hrf. cbn. by rewrite Ha1, Ha2.
Defined.

(** X18. The days overdue of a payment are never negative; they are 0
    exactly when the payment is completed or its due date has not passed;
    otherwise they are the number of days, rounded up, since the due
    date. *)
Theorem days_overdue_rounds_up env p :
  let d := daysOverdue env p in
  0 ≤ d
  ∧ (d = 0 ↔ status p = completed ∨ now env ≤ dueDate p)
  ∧ (0 < d → (d - 1) * Paging.ms_per_day < now env - dueDate p
                                        ≤ d * Paging.ms_per_day).
Proof.
  intros d. subst d. unfold daysOverdue.
  case_bool_decide as Hc.
  { split; [done|]. split; [tauto|lia]. }
  destruct (dueDate p <? now env) eqn:Hlt.
  - apply Z.ltb_lt in Hlt.
    pose proof (ceil_div_bounds (now env - dueDate p) Paging.ms_per_day
                  ltac:(done)) as Hb.
    unfold Paging.ms_per_day in *.
    split; [nia|]. split; [|intros _; exact Hb].
    split; [intros H0; rewrite H0 in Hb; lia|intros [?|?]; [done|lia]].
  - apply Z.ltb_ge in Hlt. split; [done|]. split; [tauto|lia].
Qed.

End PaymentFurther.

(** ** More on administrators *)

Section AdminFurther.
Import AdminModel AuthRoutes AdminHistory.

(** Appending to a log that keeps its last [n] entries. *)
Lemma capped_push {A} (n : nat) (l : list A) (x : A) :
  (0 < n)%nat →
  let l1 := l ++ [x] in
  let l' := if (n <? length l1)%nat then slice_last n l1 else l1 in
  last l' = Some x
  ∧ length l' = Nat.min n (S (length l))
  ∧ l' `suffix_of` l1
  ∧ ((length l < n)%nat → l' = l ++ [x])
  ∧ (length l = n → l' = drop 1 l ++ [x]).
Proof.
  intros Hn l1 l'. subst l1 l'. unfold slice_last. rewrite length_app. cbn [length].
  destruct (n <? length l + 1)%nat eqn:E.
  - apply Nat.ltb_lt in E.
    rewrite drop_app_le by lia.
    split; [by rewrite last_snoc|].
    split; [rewrite length_app, length_drop; cbn; lia|].
    split; [apply suffix_app, suffix_drop|].
    split; [lia|].
    intros <-. by replace (length l + 1 - length l)%nat with 1%nat by lia.
  - apply Nat.ltb_ge in E.
    split; [by rewrite last_snoc|].
    split; [rewrite length_app; cbn; lia|].
    split; [done|]. split; [done|lia].
Qed.

(** X20. A successful login records the new session last and keeps at most
    five: the sessions afterwards are the last five of the old ones with
    the new one appended, so with five already stored the oldest is
    dropped. *)
Theorem successful_login_keeps_five_sessions env device a :
  let a' := handleLoginAttempt env true device a in
  let new := mkSession (gen_sessionId env) device (now env) (now env) true in
  last (activeSessions a') = Some new
  ∧ length (activeSessions a') = Nat.min 5 (S (length (activeSessions a)))
  ∧ activeSessions a' `suffix_of` (activeSessions a ++ [new])
  ∧ ((length (activeSessions a) < 5)%nat →
     activeSessions a' = activeSessions a ++ [new])
  ∧ (length (activeSessions a) = 5%nat →
     activeSessions a' = drop 1 (activeSessions a) ++ [new]).
Proof.
  intros a' new.
  exact (capped_push 5 (activeSessions a) new ltac:(lia)).
Qed.

(** X21. A login request writes at most the account its e-mail finds, and
    of that account never the e-mail, the password or the status; no
    account is added or removed; and a request that is refused leaves the
    sessions, the last login and the login count of every account as they
    were. *)
Theorem login_writes_only_attempts lib env b store :
  let r := login lib env b store in
  dom r.2 = dom store
  ∧ (∀ j u', r.2 !! j = Some u' →
       ∃ u, store !! j = Some u
            ∧ email u' = email u ∧ password u' = password u
            ∧ status u' = status u
            ∧ (success r.1 = false →
               activeSessions u' = activeSessions u
               ∧ lastLogin u' = lastLogin u ∧ totalLogins u' = totalLogins u)
            ∧ ((∀ a, find_by_email (normalizeEmail lib (lb_email b)) store
                     ≠ Some (j, a)) → u' = u)).
Proof.
  intros r. subst r. unfold login.
  destruct (valid_login_body lib b); cbn [negb]; [|by eauto 10].
  destruct (find_by_email _ store) as [[id user]|] eqn:Hf; [|by eauto 10].
  destruct (find_by_email_Some _ _ _ _ Hf) as [Hu _].
  assert (Hdom : ∀ x, dom (<[id := x]> store) = dom store).
  { intros x. apply dom_insert_lookup_L. by rewrite Hu. }
  destruct (bcrypt_compare lib _ _); cbn [negb].
  - destruct (_ || _); [by eauto 10|].
    destruct (isLocked env user); [by eauto 10|]. cbn [fst snd success ok].
    split; [apply Hdom|]. intros j u'. rewrite lookup_insert.
    destruct (decide (id = j)) as [->|]; [|by eauto 10].
    intros [= <-]. exists user. split; [done|]. cbn [email password status].
    repeat split; try done. intros Hno. by destruct (Hno user).
  - cbn [fst snd success fail].
    split; [apply Hdom|]. intros j u'. rewrite lookup_insert.
    destruct (decide (id = j)) as [->|]; [|by eauto 10].
    intros [= <-]. exists user. split; [done|].
    repeat split; try done. intros Hno. by destruct (Hno user).
Qed.

(** X22. The order of the answers.  An unknown e-mail and a wrong password
    get the same "Invalid credentials"; for an account that is suspended,
    inactive or terminated the right password gets "Account is not active",
    locked or not, and nothing is written, while a wrong password is still
    counted. *)
Theorem login_answers_in_order lib env b store :
  valid_login_body lib b = true →
  (find_by_email (normalizeEmail lib (lb_email b)) store = None →
   login lib env b store = (invalid_credentials, store))
  ∧ (∀ id a, find_by_email (normalizeEmail lib (lb_email b)) store = Some (id, a) →
       (bcrypt_compare lib (lb_password b) (password a) = false →
        login lib env b store
        = (invalid_credentials, <[id := handleLoginAttempt env false "" a]> store))
       ∧ (bcrypt_compare lib (lb_password b) (password a) = true →
          status a ≠ active →
          login lib env b store = (fail 401 "Account is not active", store))).
Proof.
  intros Hv. unfold login. rewrite Hv. cbn [negb]. split.
  - by intros ->.
  - intros id a ->. split.
    + by intros ->.
    + intros -> Hst. cbn [negb]. by destruct (status a).
Qed.

Lemma login_answers_in_order_witness :
  let suspended_store :=
    <[3%positive := mkAdmin "ops@logistics.example" "correct horse" suspended None
                      (mkAttempts 0 None None) [] 0]> Samples.admins1 in
  login Samples.lib0 (Samples.env_at 100) Samples.the_password suspended_store
  = (fail 401 "Account is not active", suspended_store)
  ∧ login Samples.lib0 (Samples.env_at 100)
      (mkLoginBody "nobody@logistics.example" "correct horse" "curl") suspended_store
    = (invalid_credentials, suspended_store).
Proof.
  intros suspended_store.
  destruct (login_answers_in_order Samples.lib0 (Samples.env_at 100)
              Samples.the_password suspended_store eq_refl) as [_ Hfound].
  destruct (Hfound 3%positive _ ltac:(vm_compute; reflexivity)) as [_ Hinactive].
  destruct (login_answers_in_order Samples.lib0 (Samples.env_at 100)
              (mkLoginBody "nobody@logistics.example" "correct horse" "curl")
              suspended_store eq_refl) as [Hunknown _].
  split; [apply Hinactive; [vm_compute; reflexivity|discriminate]|].
  apply Hunknown. vm_compute. reflexivity.
Defined.

Lemma list_find_first {A} (P : A → Prop) `{∀ x, Decision (P x)} (l : list A) x :
  (∃ i, list_find P l = Some (i, x))
  ↔ ∃ pre post, l = pre ++ x :: post ∧ Forall (λ y, ¬ P y) pre ∧ P x.
Proof.
  split.
  - intros [i Hf]. apply list_find_Some in Hf as (Hl & Hx & Hbefore).
    exists (take i l), (drop (S i) l).
    split; [by rewrite take_drop_middle|]. split; [|done].
    apply Forall_forall. intros y Hy.
    apply list_elem_of_lookup in Hy as [j Hj].
    pose proof (lookup_lt_Some _ _ _ Hj) as Hlt. rewrite length_take in Hlt.
    rewrite lookup_take_lt in Hj by lia. eapply Hbefore; [exact Hj|lia].
  - intros (pre & post & -> & Hpre & Hx). exists (length pre).
    apply list_find_Some. split; [by rewrite list_lookup_middle|].
    split; [done|]. intros j y Hj Hlt.
    rewrite lookup_app_l in Hj by done.
    rewrite Forall_forall in Hpre. apply Hpre. by eapply list_elem_of_lookup_2.
Qed.

End AdminFurther.

Section AccessFacts.
Import AccessControl.

(** X23. Who passes a permission check.  [checkPermission] lets a request
    through exactly when the caller is an administrator who either is a
    super administrator or has the action listed in the first entry of the
    permission list that names the module; later entries for the same
    module are never consulted. *)
Theorem permission_first_entry_decides m a t g :
  checkPermission m a t g = pass
  ↔ t = admin
    ∧ (role g = super_admin
       ∨ ∃ pre p post, permissions g = pre ++ p :: post
                       ∧ Forall (λ q, perm_module q ≠ m) pre
                       ∧ perm_module p = m ∧ a ∈ perm_actions p).
Proof.
  unfold checkPermission, hasPermission.
  destruct (decide (t = admin)) as [->|Ht];
    [rewrite bool_decide_eq_true_2 by done
    |rewrite bool_decide_eq_false_2 by done; cbn; split; [done|tauto]].
  cbn [negb].
  destruct (decide (role g = super_admin)) as [Hr|Hr];
    [rewrite bool_decide_eq_true_2 by done; cbn; tauto
    |rewrite bool_decide_eq_false_2 by done].
  destruct (list_find (λ p, perm_module p = m) (permissions g)) as [[i p]|] eqn:Hf.
  - assert (Hdec : ∃ pre post, permissions g = pre ++ p :: post
                     ∧ Forall (λ q, perm_module q ≠ m) pre ∧ perm_module p = m).
    { apply (list_find_first (λ p, perm_module p = m)). eauto. }
    destruct Hdec as (pre & post & Hl & Hpre & Hp).
    case_bool_decide as Ha; cbn; split; try done.
    + intros _. split; [done|]. right. eauto 10.
    + intros [_ [?|(pre' & p' & post' & Hl' & Hpre' & Hp' & Ha')]]; [done|].
      exfalso. apply Ha.
      assert (Hf' : ∃ i, list_find (λ p, perm_module p = m) (permissions g)
                         = Some (i, p')).
      { apply (list_find_first (λ p, perm_module p = m)). eauto 10. }
      destruct Hf' as [i' Hf']. rewrite Hf in Hf'. by simplify_eq.
  - cbn. split; [done|].
    intros [_ [?|(pre' & p' & post' & Hl' & Hpre' & Hp' & Ha')]]; [done|].
    apply list_find_None in Hf. rewrite Hl' in Hf.
    apply Forall_app in Hf as [_ Hf]. apply Forall_cons in Hf as [Hf _]. done.
Qed.

End AccessFacts.

Section ActivityFacts.
Import ActivityLog.

(** X24. The activity log keeps the newest 1000 entries: logging appends
    the entry last, never lets the log exceed 1000 entries, drops exactly
    the oldest entry when the log is full, and counts the action. *)
Theorem activity_log_capped env entry a :
  let a' := logActivity env entry a in
  last (activityLog a') = Some entry
  ∧ length (activityLog a') = Nat.min 1000 (S (length (activityLog a)))
  ∧ ((length (activityLog a) < 1000)%nat →
     activityLog a' = activityLog a ++ [entry])
  ∧ (length (activityLog a) = 1000%nat →
     activityLog a' = drop 1 (activityLog a) ++ [entry])
  ∧ totalActions a' = totalActions a + 1
  ∧ lastActive a' = Some (now env).
Proof.
  intros a'.
  destruct (capped_push 1000 (activityLog a) entry ltac:(lia))
    as (H1 & H2 & _ & H3 & H4).
  subst a'. unfold logActivity. cbn [activityLog totalActions lastActive].
  done.
Qed.

End ActivityFacts.

Section SessionFacts.
Import AdminModel Sessions.

(** X25. Ending a session deactivates the first session with that id and
    touches nothing else: no session is removed or reordered, a session id
    that is not there changes nothing, and ending the same session again
    changes nothing more. *)
Theorem end_session_deactivates_first sid a :
  sessionId <$> activeSessions (endSession sid a) = sessionId <$> activeSessions a
  ∧ (Forall (λ s, sessionId s ≠ sid) (activeSessions a) → endSession sid a = a)
  ∧ (∀ pre s post,
       activeSessions a = pre ++ s :: post →
       Forall (λ s, sessionId s ≠ sid) pre → sessionId s = sid →
       activeSessions (endSession sid a) = pre ++ deactivate s :: post)
  ∧ endSession sid (endSession sid a) = endSession sid a
  ∧ (∀ s, s ∈ activeSessions (endSession sid a) → isActive s = true →
          s ∈ activeSessions a).
Proof.
  destruct a as [e p st ll la sessions tl]. unfold endSession.
  cbn [activeSessions email password status lastLogin loginAttempts totalLogins].
  split; [|split; [|split; [|split]]].
  - induction sessions as [|s l IH]; [done|]. cbn.
    case_bool_decide; cbn; [done|]. by rewrite IH.
  - intros Hall. f_equal.
    induction Hall as [|s l Hs _ IH]; [done|]. cbn.
    rewrite bool_decide_eq_false_2 by done. by rewrite IH.
  - intros pre s post -> Hpre Hs.
    induction Hpre as [|x l Hx _ IH]; cbn.
    + by rewrite bool_decide_eq_true_2.
    + rewrite bool_decide_eq_false_2 by done. by rewrite IH.
  - f_equal. induction sessions as [|s l IH]; [done|]. cbn.
    case_bool_decide as Hs; cbn.
    + by rewrite bool_decide_eq_true_2.
    + rewrite bool_decide_eq_false_2 by done. by rewrite IH.
  - intros s. induction sessions as [|x l IH]; [done|]. cbn.
    case_bool_decide as Hx.
    + intros [->|Hin]%elem_of_cons; [done|]. intros _. by right.
    + intros [->|Hin]%elem_of_cons Hact; [by left|]. right. by apply IH.
Qed.

End SessionFacts.

(** ** Profile update and assignment *)

Section ProfileFacts.
Import DriverModel Profile.

(** X26. The profile handler never changes a driver's status, whatever the
    request carries, but it does store the KYC status the request names.
    So a driver whose status is [approved] and whose KYC is not cannot be
    assigned, and can be assigned right after sending [kycStatus: approved]
    to their own profile. *)
Theorem profile_update_sets_kyc env who id user u drivers sid s store :
  drivers !! id = Some user → status user = approved →
  store !! sid = Some s → ShipmentModel.status s = ShipmentModel.pending →
  let drivers' := (update_profile id user u drivers).2 in
  (∃ user', drivers' !! id = Some user'
            ∧ status user' = status user
            ∧ kycStatus user' = default (kycStatus user) (u_kycStatus u))
  ∧ (∀ j, j ≠ id → drivers' !! j = drivers !! j)
  ∧ (kycStatus user ≠ kyc_approved →
     success (ShipmentRoutes.assign_driver env who sid id drivers store).1 = false)
  ∧ (u_kycStatus u = Some kyc_approved →
     success (ShipmentRoutes.assign_driver env who sid id drivers' store).1 = true).
Proof.
  intros Hd Hst Hs Hp drivers'. subst drivers'. unfold update_profile. cbn [snd].
  split; [eexists; split; [apply lookup_insert_eq|done]|].
  split; [intros j Hj; by rewrite lookup_insert_ne|].
  unfold ShipmentRoutes.assign_driver. split.
  - intros Hk. rewrite Hd, Hst, (bool_decide_eq_false_2 _ Hk). by cbn.
  - intros Hu. rewrite lookup_insert_eq.
    cbn [apply_updates strip status kycStatus u_status u_kycStatus default].
    rewrite Hu, Hst, Hs, Hp. by cbn.
Qed.

Lemma profile_update_sets_kyc_witness :
  let brian := mkDriver "Brian" "Mwangi" approved kyc_pending in
  let drivers := <[12%positive := brian]> Samples.drivers1 in
  let ask := mkUpdates None None (Some suspended) (Some kyc_approved) in
  success (ShipmentRoutes.assign_driver (Samples.env_at 2000) Samples.an_admin 1 12
             drivers Samples.shipments1).1 = false
  ∧ success (ShipmentRoutes.assign_driver (Samples.env_at 2000) Samples.an_admin 1 12
               (update_profile 12 brian ask drivers).2 Samples.shipments1).1 = true.
Proof.
  intros brian drivers ask.
  destruct (profile_update_sets_kyc (Samples.env_at 2000) Samples.an_admin 12
              brian ask drivers 1 _ Samples.shipments1
              ltac:(vm_compute; reflexivity) eq_refl
              ltac:(vm_compute; reflexivity) eq_refl)
    as (_ & _ & Hbefore & Hafter).
  split; [apply Hbefore; discriminate|apply Hafter; reflexivity].
Defined.

End ProfileFacts.

(** ** File uploads *)

Section UploadFacts.
Import Upload.

Lemma document_not_image m :
  m ∈ document_types → (m ∉ image_types) ∧ (m ∈ all_types).
Proof.
  unfold document_types. intros H.
  repeat (apply elem_of_cons in H as [->|H]); [..|by apply elem_of_nil in H];
    (split; [apply (bool_decide_unpack _)|apply (bool_decide_unpack _)]);
    vm_compute; exact I.
Qed.

Lemma image_in_all m : m ∈ image_types → m ∈ all_types.
Proof. unfold all_types. intros Hm. apply elem_of_app. by left. Qed.

(** X27. The upload filter.  Whatever the field, an accepted file has one
    of the eight listed types and every image type is accepted; a document
    type (PDF, Word) is accepted exactly when the field name contains
    neither "photo" nor "image", in lower case.  Of the fields the upload
    configurations name, that restricts only [photos]: every other one,
    [profilePhoto] and [licensePhoto] included, accepts all eight types. *)
Theorem upload_filter_by_field_name fieldname mimetype :
  (fileFilter fieldname mimetype = true → mimetype ∈ all_types)
  ∧ (mimetype ∈ image_types → fileFilter fieldname mimetype = true)
  ∧ (mimetype ∈ document_types →
     fileFilter fieldname mimetype
     = negb (includes "photo" fieldname || includes "image" fieldname))
  ∧ Forall (λ f, f = "photos" ∨ ∀ m, m ∈ all_types → fileFilter f m = true)
           configured_fields
  ∧ (fileFilter "photos" mimetype = true ↔ mimetype ∈ image_types).
Proof.
  unfold fileFilter. split; [|split; [|split; [|split; [|split]]]].
  - repeat case_match; intros Hf%bool_decide_eq_true; auto using image_in_all.
  - intros Hm. pose proof (image_in_all _ Hm).
    repeat case_match; by apply bool_decide_eq_true.
  - intros Hm. destruct (document_not_image _ Hm) as [Hni Hall].
    repeat case_match; cbn;
      first [by apply bool_decide_eq_false | by apply bool_decide_eq_true].
  - unfold configured_fields.
    repeat (constructor; [first [by left | right; intros m Hm;
      unfold all_types, image_types, document_types in Hm; cbn in Hm;
      repeat (apply elem_of_cons in Hm as [->|Hm]);
      [vm_compute; reflexivity..|by apply elem_of_nil in Hm]]|]).
    constructor.
  - cbn. by intros Hf%bool_decide_eq_true.
  - cbn. intros Hm. by apply bool_decide_eq_true.
Qed.

(** X28. The cleaned base name of an uploaded file has the length of the
    original and consists of ASCII letters, digits and underscores only;
    cleaning a cleaned name changes nothing. *)
Theorem clean_base_name_is_safe s :
  String.length (cleanBaseName s) = String.length s
  ∧ Forall (λ c, is_alnum c = true ∨ c = "_"%char)
           (list_ascii_of_string (cleanBaseName s))
  ∧ cleanBaseName (cleanBaseName s) = cleanBaseName s.
Proof.
  induction s as [|c s (IHl & IHf & IHi)]; [by repeat split|].
  cbn [cleanBaseName String.length list_ascii_of_string].
  split; [by rewrite IHl|]. split.
  - constructor; [|done]. destruct (is_alnum c) eqn:E; auto.
  - rewrite IHi. f_equal. destruct (is_alnum c) eqn:E; [by rewrite E|done].
Qed.

End UploadFacts.
